(** * omnimat.py: calendar events filtered by date range and attendance

    A shallow embedding of [omnimat.py] (classes [CalendarEvent],
    [CalendarReader], [CalendarPrinter], the function [main] and the
    [__main__] block), together with the part of Python's [datetime] module
    and of the [icalendar] value types that the program relies on.

    Layout: the definitions come first (modules [pydatetime], [icalendar],
    [omnimat], [fixtures], [ordinal_checks], [spec_terms], [numeral_checks],
    [omnimat_rest]); the lemmas follow (modules [pydatetime_facts],
    [omnimat_facts], [omnimat_spec], [omnimat_more]). *)

From Stdlib Require Import Ascii DecimalString.
From stdpp Require Import gmap strings list sorting.

Local Open Scope Z_scope.

(** ** Exceptions and results *)

(** The exceptions the program can meet.  [SystemExit] carries the status
    given to [sys.exit]. *)
Inductive exn : Type :=
| ValueError
| TypeError
| OverflowError
| AttributeError
| OSError
| SystemExit (status : Z).

Inductive result (A : Type) : Type :=
| Ok (a : A)
| Raise (e : exn).
Arguments Ok {A} a.
Arguments Raise {A} e.

Definition rbind {A B : Type} (r : result A) (k : A -> result B) : result B :=
  match r with
  | Ok a => k a
  | Raise e => Raise e
  end.

(** ** The part of Python's [datetime] module used by the program *)

Module pydatetime.

Definition MINYEAR : Z := 1.
Definition MAXYEAR : Z := 9999.
(** [date.max.toordinal()] *)
Definition _MAXORDINAL : Z := 3652059.

(** [_DAYS_IN_MONTH = [-1, 31, 28, 31, 30, 31, 30, 31, 31, 30, 31, 30, 31]] *)
Definition _DAYS_IN_MONTH (month : Z) : Z :=
  match month with
  | 1 => 31 | 2 => 28 | 3 => 31 | 4 => 30 | 5 => 31 | 6 => 30
  | 7 => 31 | 8 => 31 | 9 => 30 | 10 => 31 | 11 => 30 | 12 => 31
  | _ => -1
  end.

(** The running sums of [_DAYS_IN_MONTH]. *)
Definition _DAYS_BEFORE_MONTH (month : Z) : Z :=
  match month with
  | 1 => 0 | 2 => 31 | 3 => 59 | 4 => 90 | 5 => 120 | 6 => 151
  | 7 => 181 | 8 => 212 | 9 => 243 | 10 => 273 | 11 => 304 | 12 => 334
  | _ => -1
  end.

Definition _DI400Y : Z := 146097.
Definition _DI100Y : Z := 36524.
Definition _DI4Y : Z := 1461.

Definition _is_leap (year : Z) : bool :=
  (year mod 4 =? 0) && (negb (year mod 100 =? 0) || (year mod 400 =? 0)).

Definition _days_before_year (year : Z) : Z :=
  let y := year - 1 in
  y * 365 + y / 4 - y / 100 + y / 400.

Definition _days_in_month (year month : Z) : Z :=
  if (month =? 2) && _is_leap year then 29 else _DAYS_IN_MONTH month.

Definition _days_before_month (year month : Z) : Z :=
  _DAYS_BEFORE_MONTH month + (if (2 <? month) && _is_leap year then 1 else 0).

Definition _ymd2ord (year month day : Z) : Z :=
  _days_before_year year + _days_before_month year month + day.

(** [_ord2ymd]: the proleptic Gregorian date of an ordinal, by 400-, 100-,
    4- and 1-year cycles, then an estimate of the month that is corrected
    when it is one too large. *)
Definition _ord2ymd (n : Z) : Z * Z * Z :=
  let n := n - 1 in
  let n400 := n / _DI400Y in
  let n := n mod _DI400Y in
  let year := n400 * 400 + 1 in
  let n100 := n / _DI100Y in
  let n := n mod _DI100Y in
  let n4 := n / _DI4Y in
  let n := n mod _DI4Y in
  let n1 := n / 365 in
  let n := n mod 365 in
  let year := year + n100 * 100 + n4 * 4 + n1 in
  if (n1 =? 4) || (n100 =? 4) then (year - 1, 12, 31)
  else
    let leapyear := (n1 =? 3) && (negb (n4 =? 24) || (n100 =? 3)) in
    let month := Z.shiftr (n + 50) 5 in
    let preceding :=
      _DAYS_BEFORE_MONTH month + (if (2 <? month) && leapyear then 1 else 0) in
    if n <? preceding then
      let month := month - 1 in
      let preceding :=
        preceding
        - (_DAYS_IN_MONTH month + (if (month =? 2) && leapyear then 1 else 0)) in
      (year, month, n - preceding + 1)
    else (year, month, n - preceding + 1).

(** A [date] object. *)
Record date : Type := mkdate {
  d_year : Z;
  d_month : Z;
  d_day : Z
}.

Definition US_PER_SECOND : Z := 1000000.
Definition US_PER_DAY : Z := 86400 * US_PER_SECOND.

(** A [tzinfo] object.  [timezone offset] is a [datetime.timezone], or
    an object of another class that gives every datetime the same UTC
    offset, in microseconds; [timezone.utc] is [timezone 0].
    [zone id rule] is an object of a class of time zones with changing
    offsets, such as [zoneinfo.ZoneInfo]: [id] is the identity of the
    object, what [is] tests, and [rule] is its [utcoffset] method, which
    answers from the clock fields and the [fold] of the datetime it is
    asked about (always with an offset, never with [None]).

    Two [timezone] objects of one offset stand for one object: where the
    module tests [is] on two time zones it goes on to compare their
    offsets, and does the same thing when they are equal. *)
Inductive tzinfo_object : Type :=
| timezone (offset : Z)
| zone (id : Z) (rule : list Z -> bool -> Z).

(** A [datetime] object.  [tzinfo] is [None] for a naive datetime. *)
Record datetime : Type := mkdatetime {
  year : Z;
  month : Z;
  day : Z;
  hour : Z;
  minute : Z;
  second : Z;
  microsecond : Z;
  tzinfo : option tzinfo_object;
  fold : bool
}.

Definition utc : option tzinfo_object := Some (timezone 0).

(** The clock fields, in the order in which [_cmp] compares them. *)
Definition fields (dt : datetime) : list Z :=
  [year dt; month dt; day dt; hour dt; minute dt; second dt; microsecond dt].

(** [mytz is ottz] *)
Definition tz_is (mytz ottz : option tzinfo_object) : bool :=
  match mytz, ottz with
  | None, None => true
  | Some (timezone x), Some (timezone y) => x =? y
  | Some (zone i _), Some (zone j _) => i =? j
  | _, _ => false
  end.

(** [tz.utcoffset(dt)] *)
Definition tz_utcoffset (tz : tzinfo_object) (dt_fields : list Z)
    (dt_fold : bool) : Z :=
  match tz with
  | timezone offset => offset
  | zone _ rule => rule dt_fields dt_fold
  end.

(** [dt.utcoffset()]: [None] for a naive datetime. *)
Definition utcoffset (dt : datetime) : option Z :=
  match tzinfo dt with
  | Some tz => Some (tz_utcoffset tz (fields dt) (fold dt))
  | None => None
  end.

(** The invariants every [date] and [datetime] object satisfies (their
    constructors raise [ValueError] otherwise). *)
Definition valid_ymd (y m d : Z) : bool :=
  (MINYEAR <=? y) && (y <=? MAXYEAR) && (1 <=? m) && (m <=? 12)
  && (1 <=? d) && (d <=? _days_in_month y m).

Definition valid_date (d : date) : bool :=
  valid_ymd (d_year d) (d_month d) (d_day d).

(** A UTC offset lies strictly between -24 h and 24 h: [timezone] accepts
    no other, and [utcoffset()] raises [ValueError] on another. *)
Definition valid_offset (off : Z) : bool :=
  (- US_PER_DAY <? off) && (off <? US_PER_DAY).

(** The time zone of a datetime gives it such an offset, whatever its
    [fold]. *)
Definition valid_tzinfo (dt : datetime) : bool :=
  match tzinfo dt with
  | None => true
  | Some tz =>
      valid_offset (tz_utcoffset tz (fields dt) false)
      && valid_offset (tz_utcoffset tz (fields dt) true)
  end.

Definition valid_datetime (dt : datetime) : bool :=
  valid_ymd (year dt) (month dt) (day dt)
  && (0 <=? hour dt) && (hour dt <? 24)
  && (0 <=? minute dt) && (minute dt <? 60)
  && (0 <=? second dt) && (second dt <? 60)
  && (0 <=? microsecond dt) && (microsecond dt <? US_PER_SECOND)
  && valid_tzinfo dt.

Definition is_aware (dt : datetime) : bool :=
  match tzinfo dt with Some _ => true | None => false end.

(** [datetime.combine(d, time.min, tz)] *)
Definition combine_min (d : date) (tz : option tzinfo_object) : datetime :=
  mkdatetime (d_year d) (d_month d) (d_day d) 0 0 0 0 tz false.

(** [dt.replace(tzinfo=tz)]: the clock fields and [fold] are kept as they
    are. *)
Definition replace_tzinfo (dt : datetime) (tz : option tzinfo_object)
  : datetime :=
  mkdatetime (year dt) (month dt) (day dt)
             (hour dt) (minute dt) (second dt) (microsecond dt) tz (fold dt).

(** [dt.replace(fold=f)] *)
Definition replace_fold (dt : datetime) (f : bool) : datetime :=
  mkdatetime (year dt) (month dt) (day dt)
             (hour dt) (minute dt) (second dt) (microsecond dt) (tzinfo dt) f.

Definition toordinal (dt : datetime) : Z :=
  _ymd2ord (year dt) (month dt) (day dt).

(** The clock reading of a datetime, in microseconds since the midnight
    before ordinal 1, its time zone left aside. *)
Definition wall_us (dt : datetime) : Z :=
  (toordinal dt * 86400 + hour dt * 3600 + minute dt * 60 + second dt)
  * US_PER_SECOND + microsecond dt.

(** The instant an aware datetime denotes, on the UTC time line: its
    clock reading less its UTC offset. *)
Definition instant (dt : datetime) : Z :=
  wall_us dt - default 0 (utcoffset dt).

(** A [timedelta], as its total number of microseconds; [td_days] is its
    normalised [days] field. *)
Definition timedelta : Type := Z.

Definition td_days (td : timedelta) : Z := td / US_PER_DAY.
Definition td_seconds (td : timedelta) : Z :=
  (td mod US_PER_DAY) / US_PER_SECOND.
Definition td_microseconds (td : timedelta) : Z :=
  (td mod US_PER_DAY) mod US_PER_SECOND.

(** Every [timedelta] constructor checks the magnitude of [days]. *)
Definition mk_timedelta (us : Z) : result timedelta :=
  if Z.abs (td_days us) <=? 999999999 then Ok us else Raise OverflowError.

(** [timedelta(days=n)] *)
Definition timedelta_days (n : Z) : result timedelta :=
  mk_timedelta (n * US_PER_DAY).

(** [-td] *)
Definition td_neg (td : timedelta) : result timedelta := mk_timedelta (- td).

(** [datetime.__add__(self, other)] for a [timedelta] [other]; the result
    has the time zone of [self] and [fold] 0. *)
Definition dt_add (self : datetime) (other : timedelta) : result datetime :=
  rbind (mk_timedelta (wall_us self + other)) (fun delta =>
    let hour := td_seconds delta / 3600 in
    let rem := td_seconds delta mod 3600 in
    let minute := rem / 60 in
    let second := rem mod 60 in
    if (0 <? td_days delta) && (td_days delta <=? _MAXORDINAL) then
      let '(y, m, d) := _ord2ymd (td_days delta) in
      Ok (mkdatetime y m d hour minute second (td_microseconds delta)
                     (tzinfo self) false)
    else Raise OverflowError).

(** [datetime.__sub__(self, other)] for a [timedelta] [other]:
    [self + -other]. *)
Definition dt_sub_td (self : datetime) (other : timedelta) : result datetime :=
  rbind (td_neg other) (dt_add self).

(** Comparison of two tuples of integers, as Python orders tuples. *)
Fixpoint tuple_cmp (x y : list Z) : comparison :=
  match x, y with
  | [], [] => Eq
  | [], _ :: _ => Lt
  | _ :: _, [] => Gt
  | a :: x', b :: y' =>
      match a ?= b with
      | Eq => tuple_cmp x' y'
      | c => c
      end
  end.

(** [_cmp(x, y)]: [0 if x == y else 1 if x > y else -1]. *)
Definition cmp_int (c : comparison) : Z :=
  match c with
  | Lt => -1
  | Eq => 0
  | Gt => 1
  end.

(** [myoff == otoff] on what [utcoffset()] returns. *)
Definition offset_eq (myoff otoff : option Z) : bool :=
  match myoff, otoff with
  | None, None => true
  | Some x, Some y => x =? y
  | _, _ => false
  end.

(** [datetime._cmp(self, other, allow_mixed)].  Two datetimes with the
    same [tzinfo] object are compared by their clock fields, and so are
    two datetimes with equal UTC offsets.  Otherwise a naive and an aware
    datetime do not compare ([TypeError], or the value 2 with
    [allow_mixed]), and for two aware datetimes the sign of
    [self - other], offsets included, decides.  With [allow_mixed], which
    [__eq__] sets, a datetime whose UTC offset depends on its [fold] gets
    the value 2 against any datetime of another [tzinfo] object. *)
Definition _cmp (self other : datetime) (allow_mixed : bool) : result Z :=
  let mytz := tzinfo self in
  let ottz := tzinfo other in
  let compare_fields := cmp_int (tuple_cmp (fields self) (fields other)) in
  if tz_is mytz ottz then Ok compare_fields
  else
    let myoff := utcoffset self in
    let otoff := utcoffset other in
    if allow_mixed
       && negb (offset_eq myoff
                  (utcoffset (replace_fold self (negb (fold self)))))
    then Ok 2
    else if allow_mixed
            && negb (offset_eq otoff
                       (utcoffset (replace_fold other (negb (fold other)))))
    then Ok 2
    else if offset_eq myoff otoff then Ok compare_fields
    else
      match myoff, otoff with
      | Some myoff, Some otoff =>
          let diff : timedelta :=
            wall_us self - wall_us other + otoff - myoff in
          if td_days diff <? 0 then Ok (-1)
          else if diff =? 0 then Ok 0 else Ok 1
      | _, _ => if allow_mixed then Ok 2 else Raise TypeError
      end.

(** [self <= other] *)
Definition dt_le (self other : datetime) : result bool :=
  rbind (_cmp self other false) (fun c => Ok (c <=? 0)).

(** [self < other] *)
Definition dt_lt (self other : datetime) : result bool :=
  rbind (_cmp self other false) (fun c => Ok (c <? 0)).

(** [self == other]: [self._cmp(other, allow_mixed=True) == 0]. *)
Definition dt_eq (self other : datetime) : result bool :=
  rbind (_cmp self other true) (fun c => Ok (c =? 0)).

(** The decimal numeral of a number that is not negative, as the C
    library writes it. *)
Definition decimal (n : Z) : string :=
  NilZero.string_of_uint (N.to_uint (Z.to_N n)).

(** A numeral padded with a zero to two characters. *)
Definition pad2 (s : string) : string :=
  if (String.length s <? 2)%nat then String "0" s else s.

(** [dt.strftime('%d.%m.%Y')], from the datetime's own clock fields: [%d]
    and [%m] are the day and the month as decimal numbers padded to two
    digits; [%Y] is the year as a decimal number, which the C library
    does not pad (the year 999 comes out as [999]). *)
Definition strftime_dmY (dt : datetime) : string :=
  pad2 (decimal (day dt)) +:+ "." +:+ pad2 (decimal (month dt)) +:+ "."
  +:+ decimal (year dt).

End pydatetime.

(** ** The values the [icalendar] parser hands to the program *)

Module icalendar.
Import pydatetime.

(** A [vCalAddress]: the address text (the class derives from [str], so the
    object's truth value is that of this text) and its parameters.  The
    parameter names are stored in upper case.  [params] is optional
    because the program asks [hasattr(attendee, "params")]. *)
Record vCalAddress : Type := mkaddr {
  address : string;
  params : option (gmap string string)
}.

(** What [component.get(name)] returns for a property that is present: the
    value itself when the property occurs once, a list of the values when
    it occurs several times. *)
Inductive prop_value (A : Type) : Type :=
| One (a : A)
| Many (l : list A).
Arguments One {A} a.
Arguments Many {A} l.

(** The [dt] attribute of a [DTSTART] value: a [date] or a [datetime]. *)
Inductive dt_value : Type :=
| DtDate (d : date)
| DtDatetime (dt : datetime).

(** A component produced by [Calendar.walk()], with the properties the
    program reads; a property that is absent is [None]. *)
Record component : Type := mkcomponent {
  name : string;
  get_dtstart : option dt_value;
  get_summary : option string;
  get_attendee : option (prop_value vCalAddress)
}.

End icalendar.

(** ** The world of a run *)

(** What a run reads from outside: the built-in [int], [strptime] with the
    format ["%d_%m_%Y"] ([None] stands for [ValueError]), the components
    obtained by opening a path, parsing it and walking the calendar, and the
    successive readings of [datetime.now(timezone.utc)]. *)
Record env : Type := mkenv {
  py_int : string -> option Z;
  strptime_d_m_Y : string -> option pydatetime.datetime;
  walk_file : string -> result (list icalendar.component);
  clock : nat -> pydatetime.datetime
}.

(** What a run changes: the number of clock readings taken so far, and the
    texts handed to [print], oldest first ([print] ends each with a
    newline). *)
Record world : Type := mkworld {
  ticks : nat;
  stdout : list string
}.

(** Computations that read and change the world and may raise. *)
Definition M (A : Type) : Type := world -> result A * world.

Definition ret {A : Type} (a : A) : M A := fun w => (Ok a, w).

Definition raise {A : Type} (e : exn) : M A := fun w => (Raise e, w).

Definition bind {A B : Type} (c : M A) (k : A -> M B) : M B :=
  fun w =>
    match c w with
    | (Ok a, w') => k a w'
    | (Raise e, w') => (Raise e, w')
    end.

Definition lift {A : Type} (r : result A) : M A := fun w => (r, w).

Notation "'let!' x ':=' c 'in' k" := (bind c (fun x => k))
  (at level 10, x name, c at level 100, k at level 200).

Notation "c1 '>>' c2" := (bind c1 (fun _ => c2))
  (at level 61, left associativity).

(** [print(s)] *)
Definition print (s : string) : M unit :=
  fun w => (Ok tt, mkworld (ticks w) (stdout w ++ [s])).

(** [try: body except ValueError: handler] *)
Definition except_ValueError {A : Type} (body handler : M A) : M A :=
  fun w =>
    match body w with
    | (Raise ValueError, w') => handler w'
    | r => r
    end.

(** [sys.exit(status)] *)
Definition sys_exit {A : Type} (status : Z) : M A := raise (SystemExit status).

(** [sep.join(l)] *)
Fixpoint join (sep : string) (l : list string) : string :=
  match l with
  | [] => ""
  | [x] => x
  | x :: rest => x +:+ sep +:+ join sep rest
  end.

(** ** The program *)

Module omnimat.
Import pydatetime icalendar.

(** [class CalendarEvent].  [summary] is what [component.get("summary")]
    gave, [None] when the event has no summary. *)
Record CalendarEvent : Type := mkevent {
  summary : option string;
  start : datetime;
  attendee_status : string
}.

(** The fields of a [CalendarReader] once [__init__] has run. *)
Record CalendarReader : Type := mkreader {
  _file_path : string;
  _days_before : option Z;
  _start_date : option datetime;
  _end_date : option datetime
}.

(** The text an f-string puts for a summary. *)
Definition format_summary (s : option string) : string :=
  match s with
  | Some t => t
  | None => "None"
  end.

(** Truth value of an optional string argument ([if start_date]). *)
Definition str_truthy (s : option string) : bool :=
  match s with
  | Some t => negb (String.eqb t "")
  | None => false
  end.

(** Truth value of an optional integer ([elif self._days_before]). *)
Definition int_truthy (n : option Z) : bool :=
  match n with
  | Some k => negb (k =? 0)
  | None => false
  end.

(** Truth value of what [component.get("attendee")] returned. *)
Definition attendees_truthy (a : option (prop_value vCalAddress)) : bool :=
  match a with
  | None => false
  | Some (One x) => negb (String.eqb (address x) "")
  | Some (Many l) => match l with [] => false | _ :: _ => true end
  end.

(** [hasattr(attendee, "params") and
     attendee.params.get("PARTSTAT") == "ACCEPTED"] *)
Definition partstat_accepted (a : vCalAddress) : bool :=
  match params a with
  | Some ps =>
      match ps !! "PARTSTAT" with
      | Some v => String.eqb v "ACCEPTED"
      | None => false
      end
  | None => false
  end.

(** [attendees] as a list ([if not isinstance(attendees, list)]). *)
Definition attendee_list (a : option (prop_value vCalAddress))
  : list vCalAddress :=
  match a with
  | Some (Many l) => l
  | Some (One x) => [x]
  | None => []
  end.

(** The [for] loop of [_get_attendee_status]: it returns at the first
    attendee that accepted. *)
Fixpoint first_accepted (attendees : list vCalAddress) : option string :=
  match attendees with
  | [] => None
  | a :: rest =>
      if partstat_accepted a then Some "ACCEPTED" else first_accepted rest
  end.

(** [CalendarReader._get_attendee_status] *)
Definition _get_attendee_status (c : component) : string :=
  let attendees := get_attendee c in
  let returned :=
    if attendees_truthy attendees
    then first_accepted (attendee_list attendees)
    else None in
  match returned with
  | Some status => status
  | None => "DECLINED"
  end.

(** Lines 79-87 of [read_events]: the start of an event made aware. *)
Definition normalize_start (start : dt_value) : datetime :=
  match start with
  | DtDate d => combine_min d utc
  | DtDatetime dt =>
      match tzinfo dt with
      | None => replace_tzinfo dt utc
      | Some _ => dt
      end
  end.

(** [sorted(events, key=lambda event: event.start)]: a stable sort that
    compares keys with [<]; each event is put after the events already
    placed whose key is not greater.  When [<] orders the keys, this is
    the result of every stable sort; of two events it is the result of
    Python's, whatever [<] says. *)
Fixpoint insert_by_start (e : CalendarEvent) (placed : list CalendarEvent)
  : result (list CalendarEvent) :=
  match placed with
  | [] => Ok [e]
  | x :: rest =>
      rbind (dt_lt (start e) (start x)) (fun before =>
        if before then Ok (e :: x :: rest)
        else rbind (insert_by_start e rest) (fun r => Ok (x :: r)))
  end.

Fixpoint sorted_from (placed events : list CalendarEvent)
  : result (list CalendarEvent) :=
  match events with
  | [] => Ok placed
  | e :: rest => rbind (insert_by_start e placed) (fun p => sorted_from p rest)
  end.

Definition sorted_by_start (events : list CalendarEvent)
  : result (list CalendarEvent) :=
  sorted_from [] events.

(** The separator [" \n"]: a space and a line feed. *)
Definition space_newline : string := String " "%char (String "010"%char "").

(** The template of [print_events] for one event. *)
Definition format_event (e : CalendarEvent) : string :=
  "project meeting: " +:+ format_summary (summary e) +:+ "_"
  +:+ strftime_dmY (start e) +:+ ";".

(** [CalendarPrinter.print_events] *)
Definition print_events (events : list CalendarEvent) : M unit :=
  let formatted_events := map format_event events in
  print (join space_newline formatted_events).

Section with_env.
Variable E : env.

(** [datetime.datetime.now(timezone.utc)]: the next reading of the
    clock. *)
Definition now : M datetime :=
  fun w => (Ok (clock E (ticks w)), mkworld (S (ticks w)) (stdout w)).

(** [strptime(s, "%d_%m_%Y").replace(tzinfo=timezone.utc) if s else None] *)
Definition parse_bound (s : option string) : result (option datetime) :=
  if str_truthy s then
    match strptime_d_m_Y E (default "" s) with
    | Some dt => Ok (Some (replace_tzinfo dt utc))
    | None => Raise ValueError
    end
  else Ok None.

(** [CalendarReader.__init__] *)
Definition __init__ (file_path : string) (days_before : option Z)
    (start_date end_date : option string) : result CalendarReader :=
  rbind (parse_bound start_date) (fun sd =>
  rbind (parse_bound end_date) (fun ed =>
  Ok (mkreader file_path days_before sd ed))).

(** [CalendarReader._is_event_in_range] *)
Definition _is_event_in_range (self : CalendarReader)
    (event_start : datetime) : M bool :=
  match _start_date self, _end_date self with
  | Some start_date, Some end_date =>
      let! lower := lift (dt_le start_date event_start) in
      if lower then lift (dt_le event_start end_date) else ret false
  | _, _ =>
      if int_truthy (_days_before self) then
        let! now := now in
        let! delta := lift (timedelta_days (default 0 (_days_before self))) in
        let! days_ago := lift (dt_sub_td now delta) in
        let! lower := lift (dt_le days_ago event_start) in
        if lower then lift (dt_le event_start now) else ret false
      else ret true
  end.

(** The loop of [read_events] over the components, [events] being the
    list built so far. *)
Fixpoint collect_events (self : CalendarReader) (components : list component)
    (events : list CalendarEvent) : M (list CalendarEvent) :=
  match components with
  | [] => ret events
  | c :: rest =>
      if String.eqb (name c) "VEVENT" then
        match get_dtstart c with
        | None => raise AttributeError
        | Some raw =>
            let start := normalize_start raw in
            let! in_range := _is_event_in_range self start in
            if in_range then
              let attendee_status := _get_attendee_status c in
              if String.eqb attendee_status "ACCEPTED" then
                collect_events self rest
                  (events ++ [mkevent (get_summary c) start attendee_status])
              else collect_events self rest events
            else collect_events self rest events
        end
      else collect_events self rest events
  end.

(** [CalendarReader.read_events] *)
Definition read_events (self : CalendarReader) : M (list CalendarEvent) :=
  let! components := lift (walk_file E (_file_path self)) in
  let! events := collect_events self components [] in
  lift (sorted_by_start events).

(** [main] *)
Definition main (file_path : string) (days_before : option Z)
    (start_date end_date : option string) : M unit :=
  let! reader := lift (__init__ file_path days_before start_date end_date) in
  let! events := read_events reader in
  print_events events.

Definition usage_1 : string :=
  "Usage: python script.py <file_path> <days_before>".
Definition usage_2 : string :=
  "   or: python script.py <file_path> <start_date> <end_date>".
Definition not_an_integer : string :=
  "The number of days must be an integer.".

(** The [__main__] block, run on [sys.argv]. *)
Definition script (argv : list string) : M unit :=
  match argv with
  | [_; file_path; arg] =>
      except_ValueError
        (let! days_before :=
           lift (match py_int E arg with
                 | Some n => Ok n
                 | None => Raise ValueError
                 end) in
         main file_path (Some days_before) None None)
        (print not_an_integer >> sys_exit 1)
  | [_; file_path; start_date; end_date] =>
      main file_path None (Some start_date) (Some end_date)
  | _ =>
      print usage_1 >> print usage_2 >> sys_exit 1
  end.

End with_env.

End omnimat.

(** ** Concrete worlds for the examples *)

Module fixtures.
Import pydatetime icalendar omnimat.

Definition digit_value (c : ascii) : option Z :=
  let n := Z.of_nat (nat_of_ascii c) in
  if (48 <=? n) && (n <=? 57) then Some (n - 48) else None.

(** The ASCII characters that [int] strips as white space. *)
Definition is_space (c : ascii) : bool :=
  let n := nat_of_ascii c in
  ((9 <=? n) && (n <=? 13))%nat || ((28 <=? n) && (n <=? 32))%nat.

Fixpoint lstrip (s : string) : string :=
  match s with
  | String c rest => if is_space c then lstrip rest else s
  | EmptyString => s
  end.

Definition strip (s : string) : string :=
  String.rev (lstrip (String.rev (lstrip s))).

(** Decimal digits, with single underscores allowed between digits. *)
Fixpoint digits (acc : Z) (after_digit : bool) (s : string) : option Z :=
  match s with
  | EmptyString => if after_digit then Some acc else None
  | String c rest =>
      match digit_value c with
      | Some d => digits (10 * acc + d) true rest
      | None =>
          if Ascii.eqb c "_"%char && after_digit then digits acc false rest
          else None
      end
  end.

Fixpoint count_digits (s : string) : Z :=
  match s with
  | EmptyString => 0
  | String c rest =>
      (match digit_value c with Some _ => 1 | None => 0 end)
      + count_digits rest
  end.

(** [int(s)] on ASCII text: surrounding white space, an optional sign,
    decimal digits, no more than 4300 of them ([ValueError] beyond that
    limit, as for a text that is no numeral).  The digits and the white
    space of other scripts, which [int] takes as well, are not part of
    this fixture. *)
Definition int_ascii (s : string) : option Z :=
  let t := strip s in
  if 4300 <? count_digits t then None
  else
    match t with
    | String "-"%char rest => option_map Z.opp (digits 0 false rest)
    | String "+"%char rest => digits 0 false rest
    | t => digits 0 false t
    end.

Fixpoint split_on (sep : ascii) (cur : string) (s : string) : list string :=
  match s with
  | EmptyString => [String.rev cur]
  | String c rest =>
      if Ascii.eqb c sep then String.rev cur :: split_on sep "" rest
      else split_on sep (String c cur) rest
  end.

(** The directive [%d]: [3[0-1]|[1-2]\d|0[1-9]|[1-9]| [1-9]]. *)
Definition directive_d (s : string) : option Z :=
  match s with
  | String a EmptyString =>
      match digit_value a with
      | Some x => if 1 <=? x then Some x else None
      | None => None
      end
  | String a (String b EmptyString) =>
      match digit_value b with
      | Some y =>
          if Ascii.eqb a " "%char then (if 1 <=? y then Some y else None)
          else
            match digit_value a with
            | Some x =>
                let v := 10 * x + y in
                if (1 <=? v) && (v <=? 31) then Some v else None
            | None => None
            end
      | None => None
      end
  | _ => None
  end.

(** The directive [%m]: [1[0-2]|0[1-9]|[1-9]]. *)
Definition directive_m (s : string) : option Z :=
  match s with
  | String a EmptyString =>
      match digit_value a with
      | Some x => if 1 <=? x then Some x else None
      | None => None
      end
  | String a (String b EmptyString) =>
      match digit_value a, digit_value b with
      | Some x, Some y =>
          let v := 10 * x + y in
          if (1 <=? v) && (v <=? 12) then Some v else None
      | _, _ => None
      end
  | _ => None
  end.

(** The directive [%Y]: four digits. *)
Definition directive_Y (s : string) : option Z :=
  match s with
  | String a (String b (String c (String d EmptyString))) =>
      match digit_value a, digit_value b, digit_value c, digit_value d with
      | Some w, Some x, Some y, Some z => Some (1000 * w + 100 * x + 10 * y + z)
      | _, _, _, _ => None
      end
  | _ => None
  end.

(** [datetime.strptime(s, "%d_%m_%Y")] on ASCII text: a naive datetime at
    midnight, or [None] for [ValueError]. *)
Definition strptime_ascii (s : string) : option datetime :=
  match split_on "_"%char "" s with
  | [d; m; y] =>
      match directive_d d, directive_m m, directive_Y y with
      | Some dd, Some mm, Some yy =>
          if valid_ymd yy mm dd then Some (mkdatetime yy mm dd 0 0 0 0 None false)
          else None
      | _, _, _ => None
      end
  | _ => None
  end.

Definition accepted_attendee : vCalAddress :=
  mkaddr "mailto:ann@example.com" (Some {[ "PARTSTAT" := "ACCEPTED" ]}).

Definition declined_attendee : vCalAddress :=
  mkaddr "mailto:bob@example.com" (Some {[ "PARTSTAT" := "DECLINED" ]}).

Definition vcalendar : component := mkcomponent "VCALENDAR" None None None.

Definition vevent (start : dt_value) (title : string) (a : vCalAddress)
  : component :=
  mkcomponent "VEVENT" (Some start) (Some title) (Some (One a)).

(** A clock that reads noon on 15 January 2024 and gains one second at
    each reading. *)
Definition clock_2024 (i : nat) : datetime :=
  mkdatetime 2024 1 15 12 0 (Z.of_nat i mod 60) 0 utc false.

(** Two events start at this instant, one second after the first reading
    of [clock_2024]. *)
Definition noon_01 : datetime := mkdatetime 2024 1 15 12 0 1 0 utc false.

(** The [utcoffset] of Europe/Warsaw in 2024: one hour east of UTC, and
    two hours east between 31 March, 02:00, and 27 October, 03:00, clock
    time.  A clock time between 02:00 and 03:00 on 31 March, an hour
    which that day does not have, gets the offset of before the change
    with [fold] 0 and the offset of after it with [fold] 1; so does a
    clock time between 02:00 and 03:00 on 27 October, an hour which that
    day has twice. *)
Definition warsaw_rule (dt_fields : list Z) (dt_fold : bool) : Z :=
  let cet := 3600 * US_PER_SECOND in
  let cest := 7200 * US_PER_SECOND in
  let to_the_hour := firstn 4 dt_fields in
  match tuple_cmp to_the_hour [2024; 3; 31; 2] with
  | Lt => cet
  | Eq => if dt_fold then cest else cet
  | Gt =>
      match tuple_cmp to_the_hour [2024; 10; 27; 2] with
      | Lt => cest
      | Eq => if dt_fold then cet else cest
      | Gt => cet
      end
  end.

Definition warsaw : option tzinfo_object := Some (zone 1 warsaw_rule).

(** Two clock times of 31 March 2024 in that zone: 02:30, in the hour
    that is skipped, denotes 01:30 UTC; 03:00 denotes 01:00 UTC. *)
Definition warsaw_0230 : datetime := mkdatetime 2024 3 31 2 30 0 0 warsaw false.
Definition warsaw_0300 : datetime := mkdatetime 2024 3 31 3 0 0 0 warsaw false.

(** The calendars on disk.  [sync.ics] holds three events, two accepted
    (the later one listed first) and one declined; [declined.ics] holds
    one event, declined; [twins.ics] holds two accepted events that start
    at the same instant; [warsaw.ics] holds two accepted events with
    starts in the zone of Warsaw on 31 March 2024, the one at 03:00
    listed first; [old.ics] holds one accepted event of the year 999. *)
Definition files (path : string) : result (list component) :=
  if String.eqb path "sync.ics" then
    Ok [ vcalendar;
         vevent (DtDate (mkdate 2024 1 5)) "Review" accepted_attendee;
         vevent (DtDate (mkdate 2024 1 1)) "Sync" accepted_attendee;
         vevent (DtDate (mkdate 2024 1 3)) "Retro" declined_attendee ]
  else if String.eqb path "declined.ics" then
    Ok [ vcalendar;
         vevent (DtDate (mkdate 2024 1 10)) "Sync" declined_attendee ]
  else if String.eqb path "twins.ics" then
    Ok [ vcalendar;
         vevent (DtDatetime noon_01) "First" accepted_attendee;
         vevent (DtDatetime noon_01) "Second" accepted_attendee ]
  else if String.eqb path "warsaw.ics" then
    Ok [ vcalendar;
         vevent (DtDatetime warsaw_0300) "After" accepted_attendee;
         vevent (DtDatetime warsaw_0230) "Gap" accepted_attendee ]
  else if String.eqb path "old.ics" then
    Ok [ vcalendar;
         vevent (DtDate (mkdate 999 1 5)) "Old" accepted_attendee ]
  else Raise OSError.

Definition E0 : env := mkenv int_ascii strptime_ascii files clock_2024.

Definition w0 : world := mkworld 0 [].

End fixtures.

(** ** Checks by computation, used in the proofs about ordinals *)

Module ordinal_checks.
Import pydatetime.

(** [f] holds at the [n] integers from [i] on. *)
Fixpoint check_from (f : Z -> bool) (i : Z) (n : nat) : bool :=
  match n with
  | O => true
  | S k => if f i then check_from f (i + 1) k else false
  end.

Definition leap_day (y : Z) : Z := if _is_leap y then 1 else 0.

(** The last step of [_ord2ymd]: month and day from the day of the year
    [n] (counted from 0) and the leap-year flag. *)
Definition month_and_day (leapyear : bool) (n : Z) : Z * Z :=
  let month := Z.shiftr (n + 50) 5 in
  let preceding :=
    _DAYS_BEFORE_MONTH month + (if (2 <? month) && leapyear then 1 else 0) in
  if n <? preceding then
    let month := month - 1 in
    let preceding :=
      preceding
      - (_DAYS_IN_MONTH month + (if (month =? 2) && leapyear then 1 else 0)) in
    (month, n - preceding + 1)
  else (month, n - preceding + 1).

Definition month_and_day_ok (leapyear : bool) (n : Z) : bool :=
  let '(m, d) := month_and_day leapyear n in
  (1 <=? m) && (m <=? 12) && (1 <=? d)
  && (d <=? _DAYS_IN_MONTH m + (if (m =? 2) && leapyear then 1 else 0))
  && (_DAYS_BEFORE_MONTH m + (if (2 <? m) && leapyear then 1 else 0) + d
      =? n + 1).

(** The time of day of a datetime, in microseconds. *)
Definition time_us (dt : datetime) : Z :=
  (hour dt * 3600 + minute dt * 60 + second dt) * US_PER_SECOND
  + microsecond dt.

End ordinal_checks.

(** ** The vocabulary of the specification *)

Module spec_terms.
Import pydatetime icalendar omnimat.

(** *** Attendance *)

(** The attendee carries a participation status equal to ["ACCEPTED"]. *)
Definition carries_accepted (a : vCalAddress) : Prop :=
  exists ps : gmap string string,
    params a = Some ps /\ ps !! "PARTSTAT" = Some "ACCEPTED".

(** At least one attendee of the event carries it, whether the event has
    one attendee or several. *)
Definition some_attendee_accepted (c : component) : Prop :=
  match get_attendee c with
  | Some (One a) => carries_accepted a
  | Some (Many l) => Exists carries_accepted l
  | None => False
  end.

(** The event has one attendee, and the address of that attendee is the
    empty text. *)
Definition lone_attendee_without_address (c : component) : Prop :=
  exists a, get_attendee c = Some (One a) /\ address a = "".

(** *** Starts and bounds *)

Definition valid_dt_value (v : dt_value) : bool :=
  match v with
  | DtDate d => valid_date d
  | DtDatetime dt => valid_datetime dt
  end.

(** The start of a component, when it has one, is a [date] or [datetime]
    object. *)
Definition valid_component (c : component) : bool :=
  match get_dtstart c with
  | Some v => valid_dt_value v
  | None => true
  end.

Definition is_vevent (c : component) : bool := String.eqb (name c) "VEVENT".

(** An aware [datetime] object, in whatever time zone: what
    [normalize_start] produces. *)
Definition normalized (dt : datetime) : Prop :=
  valid_datetime dt = true /\ is_aware dt = true.

(** The time zone of the datetime is a [timezone], with a fixed offset. *)
Definition fixed_offset (dt : datetime) : bool :=
  match tzinfo dt with
  | Some (timezone _) => true
  | _ => false
  end.

(** An aware [datetime] object with a fixed offset, as the bounds that
    [__init__] builds, which are in [timezone.utc]. *)
Definition bound_ok (dt : datetime) : Prop :=
  valid_datetime dt = true /\ fixed_offset dt = true.

(** The bounds of a reader, when present, are such objects; [__init__]
    builds no other reader. *)
Definition reader_ok (r : CalendarReader) : Prop :=
  (forall d, _start_date r = Some d -> bound_ok d)
  /\ (forall d, _end_date r = Some d -> bound_ok d).

(** Every reading of the clock is a [datetime] object in UTC. *)
Definition clock_ok (E : env) : Prop :=
  forall i, valid_datetime (clock E i) = true /\ tzinfo (clock E i) = utc.

(** The three modes of the date range (specification, section 3), chosen
    by the fields supplied: both dates, else a day count, else nothing. *)
Inductive DateRange : Type :=
| Explicit (start_date end_date : datetime)
| Trailing (days : Z)
| Unbounded.

Definition active_mode (r : CalendarReader) : DateRange :=
  match _start_date r, _end_date r with
  | Some sd, Some ed => Explicit sd ed
  | _, _ =>
      match _days_before r with
      | Some n => Trailing n
      | None => Unbounded
      end
  end.

(** Membership in the range of a mode (specification, section 4.3), for
    the current instant [now]. *)
Definition in_range (mode : DateRange) (now start : datetime) : Prop :=
  match mode with
  | Explicit sd ed => instant sd <= instant start <= instant ed
  | Trailing n =>
      instant now - n * US_PER_DAY <= instant start <= instant now
  | Unbounded => True
  end.

(** The world after one more reading of the clock. *)
Definition tick (w : world) : world := mkworld (S (ticks w)) (stdout w).

(** *** The order of the output *)

Definition start_instant (e : CalendarEvent) : Z := instant (start e).

(** The order of the output, and the events of one instant. *)
Definition by_instant (a b : CalendarEvent) : Prop :=
  start_instant a <= start_instant b.

Definition at_instant (t : Z) (e : CalendarEvent) : bool :=
  start_instant e =? t.

(** Insertion after the events that do not start later, on instants. *)
Fixpoint insert_by_instant (e : CalendarEvent) (placed : list CalendarEvent)
  : list CalendarEvent :=
  match placed with
  | [] => [e]
  | x :: rest =>
      if start_instant e <? start_instant x then e :: x :: rest
      else x :: insert_by_instant e rest
  end.

(** The two datetimes carry one and the same [tzinfo] object, or are both
    naive. *)
Definition same_tzinfo_object (a b : datetime) : Prop :=
  match tzinfo a, tzinfo b with
  | None, None => True
  | Some (timezone x), Some (timezone y) => x = y
  | Some (zone i _), Some (zone j _) => i = j
  | _, _ => False
  end.

(** Python orders two datetimes that carry the same [tzinfo] object by
    their clock fields, their UTC offsets left aside.  Two datetimes are
    in step when that is the order of their instants; two datetimes of
    different objects always are, and so are two datetimes with a fixed
    offset. *)
Definition in_step (a b : datetime) : Prop :=
  same_tzinfo_object a b ->
  tuple_cmp (fields a) (fields b) = (instant a ?= instant b).

Definition chronological (events : list CalendarEvent) : Prop :=
  forall a b, In a events -> In b events -> in_step (start a) (start b).

(** *** The text of the output (specification, section 4.5) *)

Definition digit (n : Z) : ascii :=
  ascii_of_nat (48 + Z.to_nat (n mod 10)).

(** [DD] and [MM]: two digits. *)
Definition DD (n : Z) : string :=
  String (digit (n / 10)) (String (digit n) "").

(** [YYYY]: four digits. *)
Definition YYYY (n : Z) : string :=
  String (digit (n / 1000)) (String (digit (n / 100)) (DD n)).


(** The year with as many digits as it has: four from the year 1000 on,
    fewer before. *)
Definition plain_year (y : Z) : string :=
  if 1000 <=? y then YYYY y
  else if 100 <=? y then String (digit (y / 100)) (DD y)
  else if 10 <=? y then DD y
  else String (digit y) "".

(** The start formatted as [DD.MM.] and the year with the digits it has. *)
Definition DD_MM_year (dt : datetime) : string :=
  DD (day dt) +:+ "." +:+ DD (month dt) +:+ "." +:+ plain_year (year dt).

(** The summary in a line; an event without summary shows [None]. *)
Definition summary_text (e : CalendarEvent) : string :=
  match summary e with
  | Some t => t
  | None => "None"
  end.

(** The line of an event, for a format of the date. *)
Definition template_line (date : datetime -> string) (e : CalendarEvent)
  : string :=
  "project meeting: " +:+ summary_text e +:+ "_" +:+ date (start e) +:+ ";".

(** The separator: a space, then a line feed. *)
Definition separator : string := String " "%char (String "010"%char "").


End spec_terms.

(** ** Checks by computation, used in the proofs about numerals *)

Module numeral_checks.
Import pydatetime spec_terms.

(** [%d] and [%m] write the numbers below 100 on two digits. *)
Definition two_digits_ok (n : Z) : bool :=
  String.eqb (pad2 (decimal n)) (DD n).

(** [%Y] writes the years below 10000 with the digits they have. *)
Definition year_ok (n : Z) : bool :=
  String.eqb (decimal n) (plain_year n).

(** A character of a date is a digit or a dot. *)
Definition digit_or_dot (c : ascii) : bool :=
  let n := nat_of_ascii c in
  ((48 <=? n) && (n <=? 57))%nat || (n =? 46)%nat.

Fixpoint all_chars (f : ascii -> bool) (s : string) : bool :=
  match s with
  | EmptyString => true
  | String c rest => f c && all_chars f rest
  end.

End numeral_checks.

(** ** The rest of the program, and the terms of its further properties *)

Module omnimat_rest.
Import pydatetime icalendar omnimat spec_terms fixtures.

(** [self.start == other.start], that is [datetime.__eq__]; [_cmp]
    raises nothing when it is called with [allow_mixed]. *)
Definition datetime_eq (self other : datetime) : bool :=
  match dt_eq self other with
  | Ok b => b
  | Raise _ => false
  end.

(** [==] on what [component.get("summary")] gave: a text or [None]. *)
Definition summary_eq (a b : option string) : bool :=
  match a, b with
  | Some x, Some y => String.eqb x y
  | None, None => true
  | _, _ => false
  end.

(** The right-hand side of [==]: an event or an object of another class. *)
Inductive pyobject : Type :=
| an_event (e : CalendarEvent)
| another_object.

(** [CalendarEvent.__eq__] *)
Definition __eq__ (self : CalendarEvent) (other : pyobject) : bool :=
  match other with
  | an_event other =>
      summary_eq (summary self) (summary other)
      && datetime_eq (start self) (start other)
      && String.eqb (attendee_status self) (attendee_status other)
  | another_object => false
  end.

(** The date text is given (not empty) and [strptime] refuses it. *)
Definition unparsable (E : env) (s : option string) : bool :=
  str_truthy s
  && match strptime_d_m_Y E (default "" s) with
     | Some _ => false
     | None => true
     end.

(** A VEVENT component has a [DTSTART]. *)
Definition has_start (c : component) : bool :=
  negb (is_vevent c)
  || match get_dtstart c with Some _ => true | None => false end.

(** The reader compares with its two dates, or with nothing: it reads no
    clock. *)
Definition reads_no_clock (r : CalendarReader) : bool :=
  match _start_date r, _end_date r with
  | Some _, Some _ => true
  | _, _ => negb (int_truthy (_days_before r))
  end.

(** The start lies in the interval of the reader, when it has one. *)
Definition in_interval (r : CalendarReader) (s : datetime) : bool :=
  match _start_date r, _end_date r with
  | Some sd, Some ed => (instant sd <=? instant s) && (instant s <=? instant ed)
  | _, _ => true
  end.

(** The start lies in the [n] days that end at [now]. *)
Definition in_window (n : Z) (now s : datetime) : bool :=
  (instant now - n * US_PER_DAY <=? instant s) && (instant s <=? instant now).

(** The event a component contributes under a verdict [keep] on starts:
    none unless it is a VEVENT with a start that [keep] lets through and
    an attendee that accepted. *)
Definition retained_of (keep : datetime -> bool) (c : component)
  : list CalendarEvent :=
  if is_vevent c then
    match get_dtstart c with
    | Some raw =>
        if keep (normalize_start raw)
           && String.eqb (_get_attendee_status c) "ACCEPTED"
        then [mkevent (get_summary c) (normalize_start raw) "ACCEPTED"]
        else []
    | None => []
    end
  else [].

Definition retained (keep : datetime -> bool) (components : list component)
  : list CalendarEvent :=
  flat_map (retained_of keep) components.

(** Where an event of the result comes from: a VEVENT component with
    that summary and, once normalized, that start, whose attendee status
    is ["ACCEPTED"]. *)
Definition made_from (components : list component) (e : CalendarEvent) : Prop :=
  attendee_status e = "ACCEPTED"
  /\ exists c raw,
       In c components /\ is_vevent c = true
       /\ get_dtstart c = Some raw
       /\ start e = normalize_start raw
       /\ summary e = get_summary c
       /\ _get_attendee_status c = "ACCEPTED".

(** The UTC offset of the datetime depends on its [fold]: its clock time
    falls in an hour that a change of the clocks skips or repeats. *)
Definition fold_matters (dt : datetime) : Prop :=
  exists id rule,
    tzinfo dt = Some (zone id rule)
    /\ rule (fields dt) false <> rule (fields dt) true.

(** What [==] asks of two starts.  When they carry the same [tzinfo]
    object, or are both naive: the same clock fields.  Otherwise: both
    are aware, the UTC offset of neither depends on its [fold], and they
    denote the same instant. *)
Definition same_start (a b : datetime) : Prop :=
  (same_tzinfo_object a b /\ fields a = fields b)
  \/ (~ same_tzinfo_object a b
      /\ is_aware a = true /\ is_aware b = true
      /\ ~ fold_matters a /\ ~ fold_matters b
      /\ instant a = instant b).

(** The datetime is naive or has a fixed offset: its time zone, if any,
    is a [timezone]. *)
Definition without_zone (dt : datetime) : bool :=
  match tzinfo dt with
  | Some (zone _ _) => false
  | _ => true
  end.

(** The year a text of digits denotes. *)
Definition year_of_text (s : string) : option Z := digits 0 false s.

Definition year_text_ok (y : Z) : bool :=
  match year_of_text (plain_year y) with
  | Some n => n =? y
  | None => false
  end.

(** The characters of a number on two digits, and of a year, are
    digits. *)
Definition number_chars_ok (n : Z) : bool :=
  numeral_checks.all_chars numeral_checks.digit_or_dot (DD n)
  && numeral_checks.all_chars numeral_checks.digit_or_dot (plain_year n).

(** The calendar date a datetime shows. *)
Definition shown_date (dt : datetime) : Z * Z * Z :=
  (year dt, month dt, day dt).

(** More calendars: [broken.ics] is refused by the parser with
    [ValueError]; in [nostart.ics] the event has no [DTSTART]. *)
Definition more_files (path : string) : result (list component) :=
  if String.eqb path "broken.ics" then Raise ValueError
  else if String.eqb path "nostart.ics" then
    Ok [ vcalendar;
         mkcomponent "VEVENT" None (Some "Sync") (Some (One accepted_attendee)) ]
  else files path.

Definition noon : datetime := mkdatetime 2024 1 15 12 0 0 0 utc false.

(** 02:30 on 27 October 2024 in the zone of Warsaw, an hour which that
    day has twice; with [fold] 0 it denotes 00:30 UTC. *)
Definition warsaw_twice : datetime :=
  mkdatetime 2024 10 27 2 30 0 0 warsaw false.

(** The worlds of [E0] with the further calendars, the second with a clock
    that stands still at noon on 15 January 2024. *)
Definition E1 : env := mkenv int_ascii strptime_ascii more_files clock_2024.

Definition E_still : env :=
  mkenv int_ascii strptime_ascii more_files (fun _ => noon).

End omnimat_rest.

(** ** Facts about the datetime model *)

Module pydatetime_facts.
Import pydatetime ordinal_checks spec_terms.

Lemma days_before_year_succ y :
  _days_before_year (y + 1) = _days_before_year y + 365 + leap_day y.
Proof.
  unfold _days_before_year, leap_day, _is_leap.
  replace (y + 1 - 1) with y by lia.
  destruct (Z.eqb_spec (y mod 4) 0), (Z.eqb_spec (y mod 100) 0),
    (Z.eqb_spec (y mod 400) 0); simpl; Z.div_mod_to_equations; lia.
Qed.

Lemma days_before_year_mono y1 y2 :
  y1 <= y2 -> _days_before_year y1 + 365 * (y2 - y1) <= _days_before_year y2.
Proof.
  intros H. unfold _days_before_year. Z.div_mod_to_equations. lia.
Qed.

Lemma month_cases m :
  1 <= m <= 12 ->
  m = 1 \/ m = 2 \/ m = 3 \/ m = 4 \/ m = 5 \/ m = 6 \/ m = 7 \/ m = 8
  \/ m = 9 \/ m = 10 \/ m = 11 \/ m = 12.
Proof. lia. Qed.

Ltac each_month m H :=
  destruct (month_cases m H) as
    [->|[->|[->|[->|[->|[->|[->|[->|[->|[->|[->| ->]]]]]]]]]]].

Lemma valid_ymd_spec y m d :
  valid_ymd y m d = true <->
  1 <= y <= 9999 /\ 1 <= m <= 12 /\ 1 <= d <= _days_in_month y m.
Proof. unfold valid_ymd, MINYEAR, MAXYEAR. rewrite !andb_true_iff, !Z.leb_le. lia. Qed.

(** The day of the year lies within the year. *)
Lemma day_of_year_bounds y m d :
  1 <= m <= 12 -> 1 <= d <= _days_in_month y m ->
  1 <= _days_before_month y m + d <= 365 + leap_day y.
Proof.
  intros Hm Hd. unfold _days_before_month, _days_in_month, leap_day in *.
  each_month m Hm; destruct (_is_leap y); simpl in *; lia.
Qed.

(** Within a year, a later month starts after the earlier month ends. *)
Lemma month_order y m1 d1 m2 :
  1 <= m1 <= 12 -> 1 <= m2 <= 12 -> d1 <= _days_in_month y m1 -> m1 < m2 ->
  _days_before_month y m1 + d1 <= _days_before_month y m2.
Proof.
  intros H1 H2 Hd Hlt. unfold _days_before_month, _days_in_month in *.
  each_month m1 H1; each_month m2 H2; try lia;
    destruct (_is_leap y); simpl in *; lia.
Qed.

(** [_ymd2ord] is strictly increasing for the order of dates. *)
Lemma ymd2ord_year_lt y1 m1 d1 y2 m2 d2 :
  1 <= m1 <= 12 -> 1 <= d1 <= _days_in_month y1 m1 ->
  1 <= m2 <= 12 -> 1 <= d2 <= _days_in_month y2 m2 ->
  y1 < y2 -> _ymd2ord y1 m1 d1 < _ymd2ord y2 m2 d2.
Proof.
  intros Hm1 Hd1 Hm2 Hd2 Hy. unfold _ymd2ord.
  pose proof (day_of_year_bounds y1 m1 d1 Hm1 Hd1).
  pose proof (day_of_year_bounds y2 m2 d2 Hm2 Hd2).
  pose proof (days_before_year_succ y1).
  pose proof (days_before_year_mono (y1 + 1) y2). lia.
Qed.

Lemma ymd2ord_month_lt y m1 d1 m2 d2 :
  1 <= m1 <= 12 -> 1 <= d1 <= _days_in_month y m1 ->
  1 <= m2 <= 12 -> 1 <= d2 <= _days_in_month y m2 ->
  m1 < m2 -> _ymd2ord y m1 d1 < _ymd2ord y m2 d2.
Proof.
  intros Hm1 Hd1 Hm2 Hd2 Hm. unfold _ymd2ord.
  pose proof (month_order y m1 d1 m2 Hm1 Hm2 (proj2 Hd1) Hm). lia.
Qed.

Lemma ymd2ord_compare y1 m1 d1 y2 m2 d2 :
  1 <= m1 <= 12 -> 1 <= d1 <= _days_in_month y1 m1 ->
  1 <= m2 <= 12 -> 1 <= d2 <= _days_in_month y2 m2 ->
  tuple_cmp [y1; m1; d1] [y2; m2; d2] = (_ymd2ord y1 m1 d1 ?= _ymd2ord y2 m2 d2).
Proof.
  intros Hm1 Hd1 Hm2 Hd2. symmetry. simpl.
  destruct (Z.compare_spec y1 y2) as [->|Hy|Hy].
  - destruct (Z.compare_spec m1 m2) as [->|Hm|Hm].
    + unfold _ymd2ord. destruct (Z.compare_spec d1 d2) as [->|Hd|Hd].
      * apply Z.compare_refl.
      * apply Z.compare_lt_iff. lia.
      * apply Z.compare_gt_iff. lia.
    + apply Z.compare_lt_iff. now apply ymd2ord_month_lt.
    + apply Z.compare_gt_iff. now apply ymd2ord_month_lt.
  - apply Z.compare_lt_iff. now apply ymd2ord_year_lt.
  - apply Z.compare_gt_iff. now apply ymd2ord_year_lt.
Qed.

Lemma valid_datetime_spec dt :
  valid_datetime dt = true <->
  (1 <= year dt <= 9999 /\ 1 <= month dt <= 12
   /\ 1 <= day dt <= _days_in_month (year dt) (month dt))
  /\ 0 <= hour dt < 24 /\ 0 <= minute dt < 60 /\ 0 <= second dt < 60
  /\ 0 <= microsecond dt < 1000000
  /\ valid_tzinfo dt = true.
Proof.
  unfold valid_datetime, US_PER_SECOND.
  rewrite !andb_true_iff, valid_ymd_spec, !Z.leb_le, !Z.ltb_lt. tauto.
Qed.

Lemma tuple_cmp_date_time y1 m1 d1 t1 y2 m2 d2 t2 :
  tuple_cmp (y1 :: m1 :: d1 :: t1) (y2 :: m2 :: d2 :: t2) =
  match tuple_cmp [y1; m1; d1] [y2; m2; d2] with
  | Eq => tuple_cmp t1 t2
  | c => c
  end.
Proof.
  simpl. destruct (y1 ?= y2), (m1 ?= m2), (d1 ?= d2); reflexivity.
Qed.

(** Comparing the fields of two datetimes is comparing their clock
    readings. *)
Lemma fields_compare a b :
  valid_datetime a = true -> valid_datetime b = true ->
  tuple_cmp (fields a) (fields b) = (wall_us a ?= wall_us b).
Proof.
  rewrite !valid_datetime_spec.
  intros ([_ [Hm1 Hd1]] & Hh1 & Hn1 & Hs1 & Hu1 & _)
         ([_ [Hm2 Hd2]] & Hh2 & Hn2 & Hs2 & Hu2 & _).
  unfold fields, wall_us, toordinal, US_PER_SECOND.
  rewrite tuple_cmp_date_time, ymd2ord_compare by assumption.
  symmetry.
  destruct (Z.compare_spec (_ymd2ord (year a) (month a) (day a))
                           (_ymd2ord (year b) (month b) (day b))) as [->|Ho|Ho];
    [|apply Z.compare_lt_iff; lia|apply Z.compare_gt_iff; lia].
  simpl.
  destruct (Z.compare_spec (hour a) (hour b)) as [->|H|H];
    [|apply Z.compare_lt_iff; lia|apply Z.compare_gt_iff; lia].
  destruct (Z.compare_spec (minute a) (minute b)) as [->|H|H];
    [|apply Z.compare_lt_iff; lia|apply Z.compare_gt_iff; lia].
  destruct (Z.compare_spec (second a) (second b)) as [->|H|H];
    [|apply Z.compare_lt_iff; lia|apply Z.compare_gt_iff; lia].
  destruct (Z.compare_spec (microsecond a) (microsecond b)) as [->|H|H];
    [|apply Z.compare_lt_iff; lia|apply Z.compare_gt_iff; lia].
  apply Z.compare_refl.
Qed.

Lemma tuple_cmp_refl l : tuple_cmp l l = Eq.
Proof.
  induction l as [|x l IH]; [reflexivity|]. simpl. now rewrite Z.compare_refl.
Qed.

Lemma tuple_cmp_eq x : forall y, tuple_cmp x y = Eq <-> x = y.
Proof.
  induction x as [|a x IH]; intros [|b y]; simpl; try easy.
  destruct (Z.compare_spec a b) as [->|H|H].
  - rewrite IH. split; congruence.
  - split; [discriminate|]. intros [= -> _]. lia.
  - split; [discriminate|]. intros [= -> _]. lia.
Qed.

Lemma tz_is_spec a b :
  tz_is (tzinfo a) (tzinfo b) = true <-> same_tzinfo_object a b.
Proof.
  unfold tz_is, same_tzinfo_object.
  destruct (tzinfo a) as [[x|i f]|], (tzinfo b) as [[y|j g]|];
    try rewrite Z.eqb_eq; split; try easy.
Qed.

Lemma tz_is_sym a b : tz_is a b = tz_is b a.
Proof.
  destruct a as [[x|i f]|], b as [[y|j g]|]; simpl; try reflexivity;
    apply Z.eqb_sym.
Qed.

Lemma offset_eq_spec a b : offset_eq a b = true <-> a = b.
Proof.
  destruct a, b; simpl; try rewrite Z.eqb_eq; split; congruence.
Qed.

(** The sign of a difference, as [_cmp] reads it off a [timedelta]. *)
Lemma sign_of_difference (x y : Z) :
  (if td_days (x - y) <? 0 then Ok (-1)
   else if x - y =? 0 then Ok 0 else Ok 1)
  = Ok (cmp_int (x ?= y)) :> result Z.
Proof.
  unfold td_days, US_PER_DAY, US_PER_SECOND.
  destruct (Z.ltb_spec ((x - y) / (86400 * 1000000)) 0) as [H|H].
  - assert (x < y) as Hlt by (revert H; Z.div_mod_to_equations; lia).
    apply Z.compare_lt_iff in Hlt. now rewrite Hlt.
  - assert (y <= x) as Hge by (revert H; Z.div_mod_to_equations; lia).
    destruct (Z.eqb_spec (x - y) 0) as [H0|H0].
    + assert (x = y) as -> by lia. now rewrite Z.compare_refl.
    + assert (y < x) as Hgt by lia.
      apply Z.compare_gt_iff in Hgt. now rewrite Hgt.
Qed.

Lemma instant_aware dt off :
  utcoffset dt = Some off -> instant dt = wall_us dt - off.
Proof. unfold instant. now intros ->. Qed.

Lemma aware_utcoffset dt :
  is_aware dt = true -> exists off, utcoffset dt = Some off.
Proof.
  unfold is_aware, utcoffset. destruct (tzinfo dt); [eauto|discriminate].
Qed.

Lemma compare_shift (x y k : Z) : (x - k ?= y - k) = (x ?= y).
Proof.
  destruct (Z.compare_spec x y) as [->|H|H].
  - apply Z.compare_refl.
  - apply Z.compare_lt_iff. lia.
  - apply Z.compare_gt_iff. lia.
Qed.

(** On aware datetimes [_cmp] never raises: it orders two datetimes of
    one [tzinfo] object by their clock fields, and two datetimes of
    different objects by their instants. *)
Lemma cmp_aware a b :
  valid_datetime a = true -> valid_datetime b = true ->
  is_aware a = true -> is_aware b = true ->
  _cmp a b false
  = Ok (cmp_int (if tz_is (tzinfo a) (tzinfo b)
                 then tuple_cmp (fields a) (fields b)
                 else instant a ?= instant b)).
Proof.
  intros Va Vb Aa Ab. unfold _cmp. cbn [andb].
  destruct (tz_is (tzinfo a) (tzinfo b)); [reflexivity|].
  destruct (aware_utcoffset a Aa) as [oa Ha].
  destruct (aware_utcoffset b Ab) as [ob Hb].
  rewrite (instant_aware a oa Ha), (instant_aware b ob Hb), Ha, Hb.
  cbn [offset_eq].
  destruct (Z.eqb_spec oa ob) as [->|Hne].
  - rewrite fields_compare by assumption. now rewrite compare_shift.
  - replace (wall_us a - wall_us b + ob - oa)
      with ((wall_us a - oa) - (wall_us b - ob)) by lia.
    apply sign_of_difference.
Qed.

(** Aware datetimes compare without [TypeError], valid or not. *)
Lemma cmp_aware_total a b :
  is_aware a = true -> is_aware b = true -> exists c, _cmp a b false = Ok c.
Proof.
  intros Aa Ab. unfold _cmp. cbn [andb].
  destruct (tz_is (tzinfo a) (tzinfo b)); [eauto|].
  destruct (aware_utcoffset a Aa) as [oa ->].
  destruct (aware_utcoffset b Ab) as [ob ->].
  repeat match goal with
         | |- context [if ?x then _ else _] => destruct x
         end; eauto.
Qed.

Lemma dt_lt_total a b :
  is_aware a = true -> is_aware b = true -> exists r, dt_lt a b = Ok r.
Proof.
  intros Aa Ab. unfold dt_lt.
  destruct (cmp_aware_total a b Aa Ab) as [c ->]. cbn. eauto.
Qed.

(** Two datetimes in step are ordered by instant. *)
Lemma cmp_instant a b :
  valid_datetime a = true -> valid_datetime b = true ->
  is_aware a = true -> is_aware b = true -> in_step a b ->
  _cmp a b false = Ok (cmp_int (instant a ?= instant b)).
Proof.
  intros Va Vb Aa Ab Hstep. rewrite cmp_aware by assumption.
  destruct (tz_is (tzinfo a) (tzinfo b)) eqn:Hsame; [|reflexivity].
  now rewrite (Hstep (proj1 (tz_is_spec a b) Hsame)).
Qed.

Lemma dt_le_instant a b :
  valid_datetime a = true -> valid_datetime b = true ->
  is_aware a = true -> is_aware b = true -> in_step a b ->
  dt_le a b = Ok (instant a <=? instant b).
Proof.
  intros. unfold dt_le. rewrite cmp_instant by assumption. cbn [rbind].
  unfold Z.leb. now destruct (instant a ?= instant b).
Qed.

Lemma dt_lt_instant a b :
  valid_datetime a = true -> valid_datetime b = true ->
  is_aware a = true -> is_aware b = true -> in_step a b ->
  dt_lt a b = Ok (instant a <? instant b).
Proof.
  intros. unfold dt_lt. rewrite cmp_instant by assumption. cbn [rbind].
  unfold Z.ltb. now destruct (instant a ?= instant b).
Qed.

Lemma fixed_offset_aware dt : fixed_offset dt = true -> is_aware dt = true.
Proof. unfold fixed_offset, is_aware. now destruct (tzinfo dt). Qed.

(** A datetime with a fixed offset is in step with every datetime. *)
Lemma in_step_fixed a b :
  valid_datetime a = true -> valid_datetime b = true ->
  fixed_offset a = true \/ fixed_offset b = true -> in_step a b.
Proof.
  intros Va Vb Hfix Hsame. rewrite fields_compare by assumption.
  unfold same_tzinfo_object, fixed_offset, instant, utcoffset in *.
  destruct (tzinfo a) as [[x|i f]|], (tzinfo b) as [[y|j g]|];
    try contradiction; try (destruct Hfix; discriminate).
  subst y. cbn. symmetry. apply compare_shift.
Qed.

Lemma check_from_spec (f : Z -> bool) (n : nat) :
  forall i, check_from f i n = true ->
  forall j, i <= j < i + Z.of_nat n -> f j = true.
Proof.
  induction n as [|k IH]; intros i Hc j Hj.
  - simpl in Hj. lia.
  - simpl in Hc. destruct (f i) eqn:Hfi; [|discriminate].
    destruct (Z.eq_dec j i) as [->|Hne]; [assumption|].
    apply (IH (i + 1) Hc). lia.
Qed.

Lemma month_and_day_checked leapyear :
  check_from (month_and_day_ok leapyear) 0 365 = true.
Proof. destruct leapyear; vm_compute; reflexivity. Qed.

Lemma month_and_day_spec leapyear n :
  0 <= n < 365 ->
  let '(m, d) := month_and_day leapyear n in
  1 <= m <= 12
  /\ 1 <= d <= _DAYS_IN_MONTH m + (if (m =? 2) && leapyear then 1 else 0)
  /\ _DAYS_BEFORE_MONTH m + (if (2 <? m) && leapyear then 1 else 0) + d = n + 1.
Proof.
  intros Hn.
  pose proof (check_from_spec _ _ _ (month_and_day_checked leapyear) n) as H.
  unfold month_and_day_ok in H.
  destruct (month_and_day leapyear n) as [m d].
  rewrite !andb_true_iff, !Z.leb_le, Z.eqb_eq in H. lia.
Qed.

Lemma ord2ymd_unfold n :
  _ord2ymd n =
  let n0 := n - 1 in
  let q400 := n0 / 146097 in
  let q100 := (n0 mod 146097) / 36524 in
  let r100 := (n0 mod 146097) mod 36524 in
  let q4 := r100 / 1461 in
  let q1 := (r100 mod 1461) / 365 in
  let r1 := (r100 mod 1461) mod 365 in
  let Y := q400 * 400 + 1 + q100 * 100 + q4 * 4 + q1 in
  if (q1 =? 4) || (q100 =? 4) then (Y - 1, 12, 31)
  else
    let '(m, d) :=
      month_and_day ((q1 =? 3) && (negb (q4 =? 24) || (q100 =? 3))) r1 in
    (Y, m, d).
Proof.
  unfold _ord2ymd, month_and_day, _DI400Y, _DI100Y, _DI4Y. cbv zeta.
  destruct (_ || _); [reflexivity|].
  destruct (_ <? _); reflexivity.
Qed.

(** The date of an ordinal is a date of the calendar, and its ordinal is
    the one we started from. *)
Lemma ord2ymd_spec n :
  let '(y, m, d) := _ord2ymd n in
  1 <= m <= 12 /\ 1 <= d <= _days_in_month y m /\ _ymd2ord y m d = n.
Proof.
  rewrite ord2ymd_unfold. cbv zeta.
  set (n0 := n - 1).
  pose proof (Z.div_mod n0 146097 ltac:(lia)) as E400.
  pose proof (Z.mod_pos_bound n0 146097 ltac:(lia)) as B400.
  set (q400 := n0 / 146097) in *. set (r400 := n0 mod 146097) in *.
  pose proof (Z.div_mod r400 36524 ltac:(lia)) as E100.
  pose proof (Z.mod_pos_bound r400 36524 ltac:(lia)) as B100.
  set (q100 := r400 / 36524) in *. set (r100 := r400 mod 36524) in *.
  pose proof (Z.div_mod r100 1461 ltac:(lia)) as E4.
  pose proof (Z.mod_pos_bound r100 1461 ltac:(lia)) as B4.
  set (q4 := r100 / 1461) in *. set (r4 := r100 mod 1461) in *.
  pose proof (Z.div_mod r4 365 ltac:(lia)) as E1.
  pose proof (Z.mod_pos_bound r4 365 ltac:(lia)) as B1.
  set (q1 := r4 / 365) in *. set (r1 := r4 mod 365) in *.
  clearbody q400 r400 q100 r100 q4 r4 q1 r1.
  assert (0 <= q100 <= 4 /\ 0 <= q4 <= 24 /\ 0 <= q1 <= 4)
    as (Hq100 & Hq4 & Hq1) by lia.
  set (Y := q400 * 400 + 1 + q100 * 100 + q4 * 4 + q1).
  destruct ((q1 =? 4) || (q100 =? 4)) eqn:Hlast.
  - (* the last day of a leap year *)
    apply orb_true_iff in Hlast. rewrite !Z.eqb_eq in Hlast.
    assert (_is_leap (Y - 1) = true) as Hleap.
    { unfold _is_leap, Y.
      apply andb_true_iff. rewrite orb_true_iff, negb_true_iff, Z.eqb_neq, !Z.eqb_eq.
      Z.div_mod_to_equations. lia. }
    split; [lia|]. unfold _days_in_month, _ymd2ord, _days_before_month.
    rewrite Hleap. simpl. split; [lia|].
    unfold _days_before_year, Y. Z.div_mod_to_equations. lia.
  - apply orb_false_iff in Hlast. rewrite !Z.eqb_neq in Hlast.
    set (leapyear := (q1 =? 3) && (negb (q4 =? 24) || (q100 =? 3))).
    assert (_is_leap Y = leapyear) as Hleap.
    { unfold _is_leap, leapyear, Y.
      destruct (Z.eqb_spec q1 3), (Z.eqb_spec q4 24), (Z.eqb_spec q100 3); simpl;
        repeat match goal with
               | |- context [?a mod ?b =? 0] => destruct (Z.eqb_spec (a mod b) 0)
               end; simpl; try reflexivity; exfalso;
        Z.div_mod_to_equations; lia. }
    pose proof (month_and_day_spec leapyear r1 B1) as Hmd.
    destruct (month_and_day leapyear r1) as [m d].
    destruct Hmd as (Hm & Hd & Hsum).
    unfold _days_in_month, _ymd2ord, _days_before_month.
    rewrite Hleap. split; [exact Hm|]. split.
    + destruct (Z.eqb_spec m 2) as [->|Hm2]; simpl in *;
        [destruct leapyear|]; simpl in *; lia.
    + assert (_days_before_year Y = n0 - r1) as ->
        by (unfold _days_before_year, Y; Z.div_mod_to_equations; lia).
      lia.
Qed.

Lemma ymd2ord_bounds y m d :
  valid_ymd y m d = true -> 1 <= _ymd2ord y m d <= _MAXORDINAL.
Proof.
  rewrite valid_ymd_spec. intros (Hy & Hm & Hd). unfold _ymd2ord, _MAXORDINAL.
  pose proof (day_of_year_bounds y m d Hm Hd).
  pose proof (days_before_year_succ y).
  pose proof (days_before_year_mono 1 y).
  pose proof (days_before_year_mono (y + 1) 10000).
  change (_days_before_year 1) with 0 in *.
  change (_days_before_year 10000) with 3652059 in *. lia.
Qed.

Lemma ord2ymd_valid n :
  1 <= n <= _MAXORDINAL ->
  let '(y, m, d) := _ord2ymd n in
  valid_ymd y m d = true /\ _ymd2ord y m d = n.
Proof.
  intros Hn. pose proof (ord2ymd_spec n) as H.
  destruct (_ord2ymd n) as [[y m] d]. destruct H as (Hm & Hd & Ho).
  split; [|exact Ho]. apply valid_ymd_spec. split; [|tauto].
  unfold _MAXORDINAL, _ymd2ord in *.
  pose proof (day_of_year_bounds y m d Hm Hd).
  pose proof (days_before_year_succ y).
  destruct (Z_lt_le_dec y 1) as [Hlo|Hlo].
  { pose proof (days_before_year_mono (y + 1) 1).
    change (_days_before_year 1) with 0 in *. lia. }
  destruct (Z_lt_le_dec 9999 y) as [Hhi|Hhi]; [|lia].
  pose proof (days_before_year_mono 10000 y).
  change (_days_before_year 10000) with 3652059 in *. lia.
Qed.

Lemma toordinal_bounds dt :
  valid_datetime dt = true -> 1 <= toordinal dt <= _MAXORDINAL.
Proof.
  intros V. apply ymd2ord_bounds. apply valid_datetime_spec in V.
  apply valid_ymd_spec. tauto.
Qed.

Lemma wall_us_split dt : wall_us dt = toordinal dt * US_PER_DAY + time_us dt.
Proof. unfold wall_us, time_us, US_PER_DAY, US_PER_SECOND. lia. Qed.

Lemma time_us_bounds dt :
  valid_datetime dt = true -> 0 <= time_us dt < US_PER_DAY.
Proof.
  rewrite valid_datetime_spec. unfold time_us, US_PER_DAY, US_PER_SECOND. lia.
Qed.

Lemma div_mod_at q r b :
  0 <= r < b -> (q * b + r) / b = q /\ (q * b + r) mod b = r.
Proof.
  intros H. split; symmetry.
  - apply (Z.div_unique _ _ _ r); lia.
  - apply (Z.mod_unique _ _ q); lia.
Qed.

(** Going back whole days keeps the time of day; it succeeds exactly when
    the day reached is a day of the calendar. *)
Lemma dt_sub_days now n :
  valid_datetime now = true -> fixed_offset now = true ->
  1 <= toordinal now - n <= _MAXORDINAL ->
  exists d,
    rbind (timedelta_days n) (dt_sub_td now) = Ok d
    /\ valid_datetime d = true
    /\ tzinfo d = tzinfo now
    /\ wall_us d = wall_us now - n * US_PER_DAY.
Proof.
  intros V Hfix Hn.
  pose proof (toordinal_bounds now V) as Ho.
  pose proof (time_us_bounds now V) as Ht.
  unfold _MAXORDINAL in *.
  unfold timedelta_days, dt_sub_td, td_neg, mk_timedelta, td_days.
  assert (0 < US_PER_DAY) as HK by (unfold US_PER_DAY, US_PER_SECOND; lia).
  rewrite Z.div_mul by lia.
  destruct (Z.leb_spec (Z.abs n) 999999999); [|lia]. cbn [rbind].
  replace (- (n * US_PER_DAY)) with ((- n) * US_PER_DAY) by lia.
  rewrite Z.div_mul by lia.
  destruct (Z.leb_spec (Z.abs (- n)) 999999999); [|lia]. cbn [rbind].
  unfold dt_add, mk_timedelta, td_days, td_seconds, td_microseconds.
  replace (wall_us now + - n * US_PER_DAY)
    with ((toordinal now - n) * US_PER_DAY + time_us now)
    by (rewrite wall_us_split; lia).
  destruct (div_mod_at (toordinal now - n) (time_us now) US_PER_DAY Ht)
    as [Hdiv Hmod].
  rewrite Hdiv.
  destruct (Z.leb_spec (Z.abs (toordinal now - n)) 999999999); [|lia].
  cbn [rbind]. rewrite Hdiv, Hmod.
  destruct (Z.ltb_spec 0 (toordinal now - n)); [|lia].
  destruct (Z.leb_spec (toordinal now - n) _MAXORDINAL);
    [|unfold _MAXORDINAL in *; lia]. cbn [andb].
  pose proof (ord2ymd_valid (toordinal now - n) Hn) as Hymd.
  destruct (_ord2ymd (toordinal now - n)) as [[y m] d].
  destruct Hymd as [Vymd Hord].
  apply valid_datetime_spec in V. destruct V as (_ & Hh & Hmi & Hs & Hu & Vtz).
  assert (0 <= minute now * 60 + second now < 3600) as Hms by lia.
  assert (0 <= hour now * 3600 + minute now * 60 + second now < 86400) as Hhms by lia.
  unfold time_us, US_PER_SECOND.
  destruct (div_mod_at (hour now * 3600 + minute now * 60 + second now)
              (microsecond now) 1000000 Hu) as [-> ->].
  replace (hour now * 3600 + minute now * 60 + second now)
    with (hour now * 3600 + (minute now * 60 + second now)) by lia.
  destruct (div_mod_at (hour now) (minute now * 60 + second now) 3600 Hms) as [-> ->].
  destruct (div_mod_at (minute now) (second now) 60 Hs) as [-> ->].
  eexists. split; [reflexivity|]. split; [|split; [reflexivity|]].
  - apply valid_datetime_spec. simpl. apply valid_ymd_spec in Vymd.
    assert (valid_tzinfo
              (mkdatetime y m d (hour now) (minute now) (second now)
                 (microsecond now) (tzinfo now) false) = true) as Vtz'.
    { unfold valid_tzinfo, fixed_offset in *. cbn [tzinfo].
      destruct (tzinfo now) as [[off|i f]|]; try discriminate. exact Vtz. }
    tauto.
  - unfold wall_us, toordinal. simpl. rewrite Hord.
    fold (toordinal now). unfold US_PER_DAY, US_PER_SECOND. lia.
Qed.

Lemma dt_sub_days_overflow now n :
  valid_datetime now = true ->
  ~ 1 <= toordinal now - n <= _MAXORDINAL ->
  rbind (timedelta_days n) (dt_sub_td now) = Raise OverflowError.
Proof.
  intros V Hn.
  pose proof (time_us_bounds now V) as Ht.
  unfold _MAXORDINAL in *.
  unfold timedelta_days, dt_sub_td, td_neg, mk_timedelta, td_days.
  assert (0 < US_PER_DAY) as HK by (unfold US_PER_DAY, US_PER_SECOND; lia).
  rewrite Z.div_mul by lia.
  destruct (Z.leb_spec (Z.abs n) 999999999); [|reflexivity]. cbn [rbind].
  replace (- (n * US_PER_DAY)) with ((- n) * US_PER_DAY) by lia.
  rewrite Z.div_mul by lia.
  destruct (Z.leb_spec (Z.abs (- n)) 999999999); [|reflexivity]. cbn [rbind].
  unfold dt_add, mk_timedelta, td_days.
  replace (wall_us now + - n * US_PER_DAY)
    with ((toordinal now - n) * US_PER_DAY + time_us now)
    by (rewrite wall_us_split; lia).
  destruct (div_mod_at (toordinal now - n) (time_us now) US_PER_DAY Ht)
    as [Hdiv _].
  rewrite Hdiv.
  destruct (Z.leb_spec (Z.abs (toordinal now - n)) 999999999); [|reflexivity].
  cbn [rbind]. rewrite Hdiv.
  destruct (Z.ltb_spec 0 (toordinal now - n)); [|reflexivity].
  destruct (Z.leb_spec (toordinal now - n) _MAXORDINAL);
    [unfold _MAXORDINAL in *; lia|reflexivity].
Qed.

End pydatetime_facts.

(** ** Facts about the program *)

Module omnimat_facts.
Import pydatetime icalendar omnimat spec_terms pydatetime_facts.
Import ordinal_checks numeral_checks.

(** [normalize_start] turns a [date] or [datetime] object into an aware
    [datetime] object. *)
Lemma normalize_start_normalized v :
  valid_dt_value v = true -> normalized (normalize_start v).
Proof.
  destruct v as [d|dt]; simpl; intros V.
  - split; [|reflexivity]. apply valid_datetime_spec. simpl.
    apply valid_ymd_spec in V.
    assert (valid_tzinfo (combine_min d utc) = true) by reflexivity.
    repeat split; try lia; tauto.
  - destruct (tzinfo dt) eqn:Etz.
    + split; [exact V|]. unfold is_aware. now rewrite Etz.
    + split; [|reflexivity]. apply valid_datetime_spec in V.
      apply valid_datetime_spec. simpl.
      assert (valid_tzinfo (replace_tzinfo dt utc) = true) by reflexivity.
      tauto.
Qed.

(** A bound and a start compare by their instants, whatever the time
    zone of the start. *)
Lemma dt_le_bound_start a b :
  bound_ok a -> normalized b -> dt_le a b = Ok (instant a <=? instant b).
Proof.
  intros [Va Fa] [Vb Ab].
  apply dt_le_instant; auto using fixed_offset_aware, in_step_fixed.
Qed.

Lemma dt_le_start_bound a b :
  normalized a -> bound_ok b -> dt_le a b = Ok (instant a <=? instant b).
Proof.
  intros [Va Aa] [Vb Fb].
  apply dt_le_instant; auto using fixed_offset_aware, in_step_fixed.
Qed.

Lemma clock_bound E i : clock_ok E -> bound_ok (clock E i).
Proof.
  intros H. destruct (H i) as [V U]. split; [exact V|].
  unfold fixed_offset. now rewrite U.
Qed.

(** The explicit interval: both comparisons, no clock reading. *)
Lemma in_range_explicit E r s w sd ed :
  _start_date r = Some sd -> _end_date r = Some ed ->
  bound_ok sd -> bound_ok ed -> normalized s ->
  _is_event_in_range E r s w
  = (Ok ((instant sd <=? instant s) && (instant s <=? instant ed)), w).
Proof.
  intros Hsd Hed Nsd Ned Ns. unfold _is_event_in_range. rewrite Hsd, Hed.
  unfold bind, lift, ret.
  rewrite dt_le_bound_start, dt_le_start_bound by assumption.
  destruct (instant sd <=? instant s); cbn [andb]; reflexivity.
Qed.

Lemma in_range_no_interval E r s :
  (_start_date r = None \/ _end_date r = None) ->
  _is_event_in_range E r s =
  if int_truthy (_days_before r) then
    let! now := now E in
    let! delta := lift (timedelta_days (default 0 (_days_before r))) in
    let! days_ago := lift (dt_sub_td now delta) in
    let! lower := lift (dt_le days_ago s) in
    if lower then lift (dt_le s now) else ret false
  else ret true.
Proof.
  intros H. unfold _is_event_in_range.
  destruct (_start_date r), (_end_date r); try reflexivity.
  destruct H; discriminate.
Qed.

(** The trailing window: one clock reading, then the two comparisons
    against it, when the day [now - n days] exists. *)
Lemma in_range_trailing E r s w n :
  (_start_date r = None \/ _end_date r = None) ->
  _days_before r = Some n -> n <> 0 ->
  clock_ok E -> normalized s ->
  let now := clock E (ticks w) in
  1 <= toordinal now - n <= _MAXORDINAL ->
  _is_event_in_range E r s w
  = (Ok ((instant now - n * US_PER_DAY <=? instant s)
         && (instant s <=? instant now)), tick w).
Proof.
  intros Hno Hn Hnz HE Ns now0 Hrep.
  rewrite in_range_no_interval by assumption. rewrite Hn.
  cbn [int_truthy default from_option id].
  destruct (Z.eqb_spec n 0) as [|_]; [contradiction|]. cbn [negb].
  pose proof (clock_bound E (ticks w) HE) as Nnow.
  destruct (dt_sub_days now0 n (proj1 Nnow) (proj2 Nnow) Hrep)
    as (d & Hd & Vd & Tzd & Wd).
  unfold bind, now, lift. fold now0. fold (tick w).
  unfold rbind in Hd.
  destruct (timedelta_days n) as [delta|]; [|discriminate]. rewrite Hd.
  assert (tzinfo now0 = utc) as Unow by apply HE.
  assert (bound_ok d) as Nd.
  { split; [exact Vd|]. unfold fixed_offset. now rewrite Tzd, Unow. }
  rewrite dt_le_bound_start, dt_le_start_bound by assumption.
  assert (instant d = instant now0 - n * US_PER_DAY) as ->
    by (unfold instant, utcoffset; rewrite Tzd, Wd, Unow; cbn; lia).
  destruct (_ <=? instant s); cbn [andb]; reflexivity.
Qed.

Lemma in_range_trailing_overflow E r s w n :
  (_start_date r = None \/ _end_date r = None) ->
  _days_before r = Some n -> n <> 0 ->
  clock_ok E ->
  let now := clock E (ticks w) in
  ~ 1 <= toordinal now - n <= _MAXORDINAL ->
  _is_event_in_range E r s w = (Raise OverflowError, tick w).
Proof.
  intros Hno Hn Hnz HE now0 Hrep.
  rewrite in_range_no_interval by assumption. rewrite Hn.
  cbn [int_truthy default from_option id].
  destruct (Z.eqb_spec n 0) as [|_]; [contradiction|]. cbn [negb].
  pose proof (clock_bound E (ticks w) HE) as Nnow.
  pose proof (dt_sub_days_overflow now0 n (proj1 Nnow) Hrep) as Hd.
  unfold bind, now, lift. fold now0. fold (tick w).
  unfold rbind in Hd.
  destruct (timedelta_days n) as [delta|e]; [now rewrite Hd|].
  now injection Hd as ->.
Qed.

Lemma in_range_falsy E r s w :
  (_start_date r = None \/ _end_date r = None) ->
  int_truthy (_days_before r) = false ->
  _is_event_in_range E r s w = (Ok true, w).
Proof.
  intros Hno Hn. rewrite in_range_no_interval by assumption. now rewrite Hn.
Qed.

(** *** Sorting *)

Lemma insert_by_start_perm e placed out :
  insert_by_start e placed = Ok out -> out ≡ₚ e :: placed.
Proof.
  revert out. induction placed as [|x rest IH]; intros out.
  - now intros [= <-].
  - cbn [insert_by_start]. unfold rbind at 1.
    destruct (dt_lt (start e) (start x)) as [[|]|]; [| |discriminate].
    + now intros [= <-].
    + unfold rbind. destruct (insert_by_start e rest) as [l|]; [|discriminate].
      intros [= <-]. rewrite (IH l eq_refl). apply perm_swap.
Qed.

Lemma sorted_from_perm events :
  forall placed out,
    sorted_from placed events = Ok out -> out ≡ₚ placed ++ events.
Proof.
  induction events as [|e rest IH]; intros placed out.
  - intros [= <-]. now rewrite app_nil_r.
  - cbn [sorted_from]. unfold rbind.
    destruct (insert_by_start e placed) as [p|] eqn:Hi; [|discriminate].
    intros H. rewrite (IH _ _ H), (insert_by_start_perm _ _ _ Hi).
    simpl. apply Permutation_middle.
Qed.

Lemma insert_by_start_total e placed :
  is_aware (start e) = true ->
  Forall (fun x => is_aware (start x) = true) placed ->
  exists out, insert_by_start e placed = Ok out.
Proof.
  intros Ae. induction 1 as [|x rest Ax _ [out IH]]; [now exists [e]|].
  cbn [insert_by_start].
  destruct (dt_lt_total (start e) (start x) Ae Ax) as [[|] ->]; cbn [rbind].
  - eauto.
  - rewrite IH. cbn [rbind]. eauto.
Qed.

Lemma sorted_from_total events :
  Forall (fun x => is_aware (start x) = true) events ->
  forall placed,
    Forall (fun x => is_aware (start x) = true) placed ->
    exists out, sorted_from placed events = Ok out.
Proof.
  induction 1 as [|e rest Ae _ IH]; intros placed Ap; [now exists placed|].
  cbn [sorted_from].
  destruct (insert_by_start_total e placed Ae Ap) as [p Hp]. rewrite Hp.
  cbn [rbind]. apply IH.
  apply insert_by_start_perm in Hp.
  rewrite Forall_forall in *. intros x Hx. rewrite Hp in Hx.
  apply elem_of_cons in Hx as [->|Hx]; [exact Ae|now apply Ap].
Qed.

(** [sorted] succeeds on aware datetimes, whatever their time zones, and
    returns the events it was given, in some order. *)
Lemma sorted_by_start_total events :
  Forall (fun x => normalized (start x)) events ->
  exists out, sorted_by_start events = Ok out /\ out ≡ₚ events.
Proof.
  intros N.
  destruct (sorted_from_total events) with (placed := @nil CalendarEvent)
    as [out Ho]; [|constructor|].
  - eapply Forall_impl; [exact N|]. now intros x [_ ?].
  - exists out. split; [exact Ho|]. now apply sorted_from_perm in Ho.
Qed.

(** The proofs about sorted lists use instants as opaque integers. *)
Local Opaque instant.

Lemma dt_lt_in_step a b :
  normalized a -> normalized b -> in_step a b ->
  dt_lt a b = Ok (instant a <? instant b).
Proof. intros [] [] ?. now apply dt_lt_instant. Qed.

Lemma insert_by_start_pure e placed :
  normalized (start e) ->
  Forall (fun x => normalized (start x) /\ in_step (start e) (start x)) placed ->
  insert_by_start e placed = Ok (insert_by_instant e placed).
Proof.
  intros Ne. induction 1 as [|x rest [Nx Sx] _ IH]; [reflexivity|].
  cbn [insert_by_start insert_by_instant].
  rewrite dt_lt_in_step by assumption. cbn [rbind].
  unfold start_instant.
  destruct (instant (start e) <? instant (start x)); [reflexivity|].
  now rewrite IH.
Qed.

Lemma insert_by_instant_perm e placed :
  insert_by_instant e placed ≡ₚ e :: placed.
Proof.
  induction placed as [|x rest IH]; [reflexivity|]. simpl.
  destruct (start_instant e <? start_instant x); [reflexivity|].
  rewrite IH. apply perm_swap.
Qed.

Lemma insert_by_instant_sorted e placed :
  StronglySorted by_instant placed ->
  StronglySorted by_instant (insert_by_instant e placed).
Proof.
  induction 1 as [|x rest Hs IH Hx]; simpl.
  - repeat constructor.
  - destruct (Z.ltb_spec (start_instant e) (start_instant x)) as [Hlt|Hge].
    + constructor; [now constructor|].
      constructor; [unfold by_instant; lia|].
      eapply Forall_impl; [exact Hx|]. unfold by_instant. intros; lia.
    + constructor; [exact IH|].
      rewrite (insert_by_instant_perm e rest). now constructor.
Qed.

Lemma filter_none {A : Type} (f : A -> bool) (l : list A) :
  Forall (fun x => f x = false) l -> List.filter f l = [].
Proof.
  induction 1 as [|x rest Hx _ IH]; [reflexivity|]. simpl. now rewrite Hx.
Qed.

(** An event goes behind the events already placed at its own instant,
    and leaves those of the other instants where they were. *)
Lemma insert_by_instant_stable t e placed :
  StronglySorted by_instant placed ->
  List.filter (at_instant t) (insert_by_instant e placed)
  = List.filter (at_instant t) placed ++ List.filter (at_instant t) [e].
Proof.
  induction 1 as [|x rest Hs IH Hx]; [reflexivity|].
  cbn [insert_by_instant].
  destruct (Z.ltb_spec (start_instant e) (start_instant x)) as [Hlt|Hge].
  - change (e :: x :: rest) with ([e] ++ x :: rest). rewrite List.filter_app.
    change (List.filter (at_instant t) [e])
      with (if at_instant t e then [e] else []).
    destruct (at_instant t e) eqn:He; [|now rewrite app_nil_r].
    apply Z.eqb_eq in He.
    rewrite (filter_none (at_instant t) (x :: rest)); [reflexivity|].
    constructor.
    + apply Z.eqb_neq. lia.
    + eapply Forall_impl; [exact Hx|]. unfold by_instant, at_instant.
      intros y Hy. apply Z.eqb_neq. lia.
  - cbn [List.filter]. rewrite IH.
    destruct (at_instant t x); reflexivity.
Qed.

Lemma chronological_perm l l' :
  l ≡ₚ l' -> chronological l -> chronological l'.
Proof.
  intros Hp H a b Ha Hb. apply H.
  - apply list_elem_of_In. rewrite Hp. now apply list_elem_of_In.
  - apply list_elem_of_In. rewrite Hp. now apply list_elem_of_In.
Qed.

Lemma normalized_perm (l l' : list CalendarEvent) :
  l ≡ₚ l' -> Forall (fun x => normalized (start x)) l ->
  Forall (fun x => normalized (start x)) l'.
Proof. intros Hp H. now rewrite <- Hp. Qed.

Lemma sorted_from_spec events :
  forall placed,
    Forall (fun x => normalized (start x)) (placed ++ events) ->
    chronological (placed ++ events) ->
    StronglySorted by_instant placed ->
    exists out,
      sorted_from placed events = Ok out
      /\ StronglySorted by_instant out
      /\ out ≡ₚ placed ++ events
      /\ forall t, List.filter (at_instant t) out
                   = List.filter (at_instant t) placed
                     ++ List.filter (at_instant t) events.
Proof.
  induction events as [|e rest IH]; intros placed Np Cp Sp.
  - exists placed. rewrite app_nil_r. repeat split; try easy.
    intros t. simpl. now rewrite app_nil_r.
  - cbn [sorted_from].
    assert (insert_by_start e placed = Ok (insert_by_instant e placed)) as ->.
    { apply Forall_app in Np as [Npl Nev].
      apply insert_by_start_pure; [now inversion Nev|].
      rewrite Forall_forall in *. intros x Hx. split; [now apply Npl|].
      apply list_elem_of_In in Hx.
      apply Cp; apply in_or_app; [right; now left|now left]. }
    cbn [rbind].
    assert (insert_by_instant e placed ++ rest ≡ₚ placed ++ e :: rest) as Hperm.
    { rewrite (insert_by_instant_perm e placed). simpl.
      apply Permutation_middle. }
    destruct (IH (insert_by_instant e placed)) as (out & Ho & So & Po & Fo).
    + eapply normalized_perm; [symmetry; exact Hperm|exact Np].
    + eapply chronological_perm; [symmetry; exact Hperm|exact Cp].
    + now apply insert_by_instant_sorted.
    + exists out. split; [exact Ho|]. split; [exact So|]. split.
      * now rewrite Po.
      * intros t. rewrite Fo, insert_by_instant_stable by assumption.
        rewrite <- app_assoc. f_equal.
        change (e :: rest) with ([e] ++ rest). now rewrite List.filter_app.
Qed.

(** On aware datetimes that are in step, the result of [sorted] is
    ordered by instant, holds the same events, and keeps the events of
    each instant in the order they came in. *)
Lemma sorted_by_start_spec events :
  Forall (fun x => normalized (start x)) events ->
  chronological events ->
  exists out,
    sorted_by_start events = Ok out
    /\ StronglySorted by_instant out
    /\ out ≡ₚ events
    /\ forall t, List.filter (at_instant t) out
                 = List.filter (at_instant t) events.
Proof.
  intros N C.
  destruct (sorted_from_spec events [] N C) as (out & Ho & So & Po & Fo);
    [constructor|].
  exists out. auto.
Qed.

Local Transparent instant.

(** *** The loop of [read_events] *)

Lemma collect_events_normalized E r components :
  Forall (fun c => valid_component c = true) components ->
  forall events w events' w',
    Forall (fun x => normalized (start x)) events ->
    collect_events E r components events w = (Ok events', w') ->
    Forall (fun x => normalized (start x)) events'.
Proof.
  induction 1 as [|c rest Vc _ IH]; intros events w events' w' Ne Hc.
  - injection Hc as <- _. exact Ne.
  - cbn [collect_events] in Hc.
    destruct (String.eqb (name c) "VEVENT"); [|now apply (IH _ _ _ _ Ne Hc)].
    unfold valid_component in Vc.
    destruct (get_dtstart c) as [raw|]; [|discriminate].
    unfold bind at 1 in Hc.
    destruct (_is_event_in_range E r (normalize_start raw) w) as [[b|e] w1];
      [|discriminate].
    destruct b; [|now apply (IH _ _ _ _ Ne Hc)].
    destruct (String.eqb (_get_attendee_status c) "ACCEPTED");
      [|now apply (IH _ _ _ _ Ne Hc)].
    refine (IH _ _ _ _ _ Hc). apply Forall_app. split; [exact Ne|].
    constructor; [|constructor]. now apply normalize_start_normalized.
Qed.

(** In the trailing window every range check reads the clock once,
    whatever its outcome. *)
Lemma in_range_trailing_ticks E r s w :
  (_start_date r = None \/ _end_date r = None) ->
  int_truthy (_days_before r) = true ->
  snd (_is_event_in_range E r s w) = tick w
  \/ exists e, _is_event_in_range E r s w = (Raise e, tick w).
Proof.
  intros Hno Ht. rewrite in_range_no_interval by assumption. rewrite Ht.
  unfold bind, now, lift, ret. fold (tick w).
  destruct (timedelta_days _) as [delta|e]; [|right; now exists e].
  destruct (dt_sub_td _ delta) as [ago|e]; [|right; now exists e].
  destruct (dt_le ago s) as [[|]|e]; [| now left | right; now exists e].
  destruct (dt_le s _) as [b|e]; [now left | right; now exists e].
Qed.

Lemma in_range_trailing_tick E r s w :
  (_start_date r = None \/ _end_date r = None) ->
  int_truthy (_days_before r) = true ->
  snd (_is_event_in_range E r s w) = tick w.
Proof.
  intros Hno Ht.
  destruct (in_range_trailing_ticks E r s w Hno Ht) as [H|[e H]];
    [exact H | now rewrite H].
Qed.

Lemma collect_events_ticks E r components :
  (_start_date r = None \/ _end_date r = None) ->
  int_truthy (_days_before r) = true ->
  forall events w events' w',
    collect_events E r components events w = (Ok events', w') ->
    ticks w' = (ticks w + length (List.filter is_vevent components))%nat.
Proof.
  intros Hno Ht. induction components as [|c rest IH]; intros events w events' w' Hc.
  - injection Hc as _ <-. simpl. lia.
  - cbn [collect_events List.filter] in *. unfold is_vevent at 1.
    destruct (String.eqb (name c) "VEVENT"); [|exact (IH _ _ _ _ Hc)].
    destruct (get_dtstart c) as [raw|]; [|discriminate].
    unfold bind at 1 in Hc.
    pose proof (in_range_trailing_tick E r (normalize_start raw) w Hno Ht) as Hw.
    destruct (_is_event_in_range E r (normalize_start raw) w) as [[b|e] w1];
      [|discriminate].
    simpl in Hw. subst w1.
    assert (forall evs, collect_events E r rest evs (tick w) = (Ok events', w') ->
              ticks w' = (ticks w + length (is_vevent c :: [])
                          + length (List.filter is_vevent rest))%nat) as Hstep.
    { intros evs H. rewrite (IH _ _ _ _ H). simpl. lia. }
    simpl in Hstep. cbn [length].
    destruct b; [|rewrite (Hstep _ Hc); lia].
    destruct (String.eqb (_get_attendee_status c) "ACCEPTED");
      rewrite (Hstep _ Hc); lia.
Qed.

(** The loop depends on the reader through the range check only. *)
Lemma collect_events_ext E r1 r2 components :
  (forall s w, _is_event_in_range E r1 s w = _is_event_in_range E r2 s w) ->
  forall events w,
    collect_events E r1 components events w
    = collect_events E r2 components events w.
Proof.
  intros H. induction components as [|c rest IH]; intros events w; [reflexivity|].
  cbn [collect_events].
  destruct (String.eqb (name c) "VEVENT"); [|apply IH].
  destruct (get_dtstart c) as [raw|]; [|reflexivity].
  unfold bind. rewrite H.
  destruct (_is_event_in_range E r2 (normalize_start raw) w) as [[[|]|e] w1];
    [|apply IH|reflexivity].
  destruct (String.eqb (_get_attendee_status c) "ACCEPTED"); apply IH.
Qed.

(** *** Attendance *)

Lemma partstat_accepted_spec a :
  partstat_accepted a = true <-> carries_accepted a.
Proof.
  unfold partstat_accepted, carries_accepted. split.
  - destruct (params a) as [ps|]; [|discriminate].
    destruct (ps !! "PARTSTAT") as [v|] eqn:Ev; [|discriminate].
    intros H. apply String.eqb_eq in H. subst v. now exists ps.
  - intros (ps & -> & ->). reflexivity.
Qed.

Lemma first_accepted_spec attendees :
  (first_accepted attendees = Some "ACCEPTED"
   /\ Exists carries_accepted attendees)
  \/ (first_accepted attendees = None
      /\ ~ Exists carries_accepted attendees).
Proof.
  induction attendees as [|a rest IH]; simpl.
  - right. split; [reflexivity|]. intros H. inversion H.
  - destruct (partstat_accepted a) eqn:Ea.
    + left. split; [reflexivity|]. left. now apply partstat_accepted_spec.
    + destruct IH as [[-> H]|[-> H]]; [left|right]; split; try reflexivity.
      * now right.
      * intros Hex. inversion Hex as [? ? Ha|? ? Hr]; subst.
        -- apply partstat_accepted_spec in Ha. congruence.
        -- contradiction.
Qed.

(** *** Text *)

Lemma append_cons a s t : String a s +:+ t = String a (s +:+ t).
Proof. reflexivity. Qed.




Lemma two_digits_checked :
  check_from two_digits_ok 0 (Z.to_nat 100) = true.
Proof. vm_compute. reflexivity. Qed.

Lemma year_checked : check_from year_ok 0 (Z.to_nat 10000) = true.
Proof. vm_compute. reflexivity. Qed.

(** [%d] and [%m] give the two digits of the number. *)
Lemma pad2_decimal n : 0 <= n < 100 -> pad2 (decimal n) = DD n.
Proof.
  intros Hn. apply String.eqb_eq.
  apply (check_from_spec two_digits_ok _ _ two_digits_checked). lia.
Qed.

(** [%Y] gives the digits the year has. *)
Lemma decimal_year y : 0 <= y < 10000 -> decimal y = plain_year y.
Proof.
  intros Hy. apply String.eqb_eq.
  apply (check_from_spec year_ok _ _ year_checked). lia.
Qed.

Lemma days_in_month_le y m : 1 <= m <= 12 -> _days_in_month y m <= 31.
Proof.
  intros Hm. unfold _days_in_month.
  each_month m Hm; destruct (_is_leap y); simpl; lia.
Qed.

(** [strftime] on a [datetime] object: day and month on two digits, the
    year with the digits it has. *)
Lemma strftime_text dt :
  valid_datetime dt = true -> strftime_dmY dt = DD_MM_year dt.
Proof.
  rewrite valid_datetime_spec. intros ((Hy & Hm & Hd) & _).
  pose proof (days_in_month_le (year dt) (month dt) Hm).
  unfold strftime_dmY, DD_MM_year.
  rewrite !pad2_decimal, decimal_year by lia. reflexivity.
Qed.

Lemma format_event_text e :
  valid_datetime (start e) = true ->
  format_event e = template_line DD_MM_year e.
Proof.
  intros V. unfold format_event, template_line, format_summary, summary_text.
  now rewrite strftime_text.
Qed.




(** *** The constructor *)

Lemma init_no_dates E path days :
  __init__ E path days None None = Ok (mkreader path days None None).
Proof. reflexivity. Qed.

Lemma init_file_path E path days sd ed r :
  __init__ E path days sd ed = Ok r -> _file_path r = path.
Proof.
  unfold __init__, rbind.
  destruct (parse_bound E sd); [|discriminate].
  destruct (parse_bound E ed); [|discriminate].
  now intros [= <-].
Qed.

Lemma parse_bound_is_bound E s d :
  (forall t dt, strptime_d_m_Y E t = Some dt -> valid_datetime dt = true) ->
  parse_bound E s = Ok (Some d) -> bound_ok d.
Proof.
  intros HE. unfold parse_bound.
  destruct (str_truthy s); [|discriminate].
  destruct (strptime_d_m_Y E (default "" s)) as [dt|] eqn:Ep; [|discriminate].
  intros [= <-]. apply HE in Ep. split; [|reflexivity].
  apply valid_datetime_spec in Ep. apply valid_datetime_spec. simpl.
  assert (valid_tzinfo (replace_tzinfo dt utc) = true) by reflexivity.
  tauto.
Qed.

(** [__init__] builds readers whose bounds are aware datetimes. *)
Lemma init_reader_ok E path days sd ed r :
  (forall t dt, strptime_d_m_Y E t = Some dt -> valid_datetime dt = true) ->
  __init__ E path days sd ed = Ok r -> reader_ok r.
Proof.
  intros HE. unfold __init__, rbind.
  destruct (parse_bound E sd) as [psd|] eqn:Es; [|discriminate].
  destruct (parse_bound E ed) as [ped|] eqn:Ee; [|discriminate].
  intros [= <-]. split; simpl; intros d ->;
    eapply parse_bound_is_bound; eassumption.
Qed.

End omnimat_facts.

(** ** The properties of the specification *)

Module omnimat_spec.
Import pydatetime icalendar omnimat spec_terms fixtures.
Import pydatetime_facts omnimat_facts.
Import ordinal_checks.

(** *** The fixtures are well formed *)

Lemma clock_2024_ok (i : nat) :
  valid_datetime (clock_2024 i) = true /\ tzinfo (clock_2024 i) = utc.
Proof.
  split; [|reflexivity]. apply valid_datetime_spec.
  pose proof (Z.mod_pos_bound (Z.of_nat i) 60 ltac:(lia)).
  unfold clock_2024; cbn [year month day hour minute second microsecond tzinfo].
  repeat split; try lia; vm_compute; congruence.
Qed.

Lemma E0_clock_ok : clock_ok E0.
Proof. intros i. apply clock_2024_ok. Qed.

Lemma no_bounds_ok path days : reader_ok (mkreader path days None None).
Proof. split; simpl; discriminate. Qed.

(** *** Date-range membership *)

(** C1, as amended.  For a normalized event start the range check follows
    the active mode: with both dates it returns whether
    [start_date <= start <= end_date] on instants, both ends included;
    with a day count [n] other than 0 it reads the clock once and, when the
    day [now - n days] is a day of the calendar, returns whether
    [now - n days <= start <= now], and raises [OverflowError] when it is
    not; with the day count 0, or with no day count, it returns [True]. *)
Theorem in_range_by_mode (E : env) (r : CalendarReader) (s : datetime) (w : world) :
  clock_ok E -> reader_ok r -> normalized s ->
  let now := clock E (ticks w) in
  match active_mode r with
  | Explicit sd ed =>
      exists b, _is_event_in_range E r s w = (Ok b, w)
                /\ (b = true <-> in_range (Explicit sd ed) now s)
  | Trailing n =>
      if n =? 0 then _is_event_in_range E r s w = (Ok true, w)
      else if (1 <=? toordinal now - n) && (toordinal now - n <=? _MAXORDINAL)
      then exists b, _is_event_in_range E r s w = (Ok b, tick w)
                     /\ (b = true <-> in_range (Trailing n) now s)
      else _is_event_in_range E r s w = (Raise OverflowError, tick w)
  | Unbounded => _is_event_in_range E r s w = (Ok true, w)
  end.
Proof.
  intros HE [Hsd Hed] Ns now0. unfold active_mode.
  assert (forall sd ed, _start_date r = Some sd -> _end_date r = Some ed ->
            exists b, _is_event_in_range E r s w = (Ok b, w)
                      /\ (b = true <-> in_range (Explicit sd ed) now0 s)) as Hexp.
  { intros sd ed Es Ee.
    exists ((instant sd <=? instant s) && (instant s <=? instant ed)). split.
    - apply in_range_explicit; auto.
    - cbn [in_range]. rewrite andb_true_iff, !Z.leb_le. reflexivity. }
  assert (_start_date r = None \/ _end_date r = None ->
          match _days_before r with
          | Some n =>
              if n =? 0 then _is_event_in_range E r s w = (Ok true, w)
              else if (1 <=? toordinal now0 - n)
                      && (toordinal now0 - n <=? _MAXORDINAL)
              then exists b, _is_event_in_range E r s w = (Ok b, tick w)
                             /\ (b = true <-> in_range (Trailing n) now0 s)
              else _is_event_in_range E r s w = (Raise OverflowError, tick w)
          | None => _is_event_in_range E r s w = (Ok true, w)
          end) as Hrest.
  { intros Hno. destruct (_days_before r) as [n|] eqn:En.
    - destruct (Z.eqb_spec n 0) as [->|Hnz].
      + apply in_range_falsy; [exact Hno|]. now rewrite En.
      + destruct (Z.leb_spec 1 (toordinal now0 - n)) as [Hlo|Hlo];
          destruct (Z.leb_spec (toordinal now0 - n) _MAXORDINAL) as [Hhi|Hhi];
          cbn [andb].
        * exists ((instant now0 - n * US_PER_DAY <=? instant s)
                  && (instant s <=? instant now0)). split.
          -- apply in_range_trailing; auto.
          -- cbn [in_range]. fold now0.
             rewrite andb_true_iff, !Z.leb_le. reflexivity.
        * apply (in_range_trailing_overflow E r s w n); auto. fold now0. lia.
        * apply (in_range_trailing_overflow E r s w n); auto. fold now0. lia.
        * apply (in_range_trailing_overflow E r s w n); auto. fold now0. lia.
    - apply in_range_falsy; [exact Hno|]. now rewrite En. }
  destruct (_start_date r) as [sd|], (_end_date r) as [ed|];
    [now apply Hexp| | |];
    (lapply Hrest; [|auto]); destruct (_days_before r); auto.
Qed.

Lemma in_range_by_mode_witness :
  clock_ok E0
  /\ reader_ok (mkreader "sync.ics" (Some 7) None None)
  /\ normalized (mkdatetime 2024 1 10 0 0 0 0 utc false)
  /\ exists b,
       _is_event_in_range E0 (mkreader "sync.ics" (Some 7) None None)
         (mkdatetime 2024 1 10 0 0 0 0 utc false) w0 = (Ok b, tick w0)
       /\ (b = true <->
           in_range (Trailing 7) (clock E0 0) (mkdatetime 2024 1 10 0 0 0 0 utc false)).
Proof.
  split; [exact E0_clock_ok|]. split; [apply no_bounds_ok|].
  split; [split; reflexivity|].
  exact (in_range_by_mode E0 (mkreader "sync.ics" (Some 7) None None)
           (mkdatetime 2024 1 10 0 0 0 0 utc false) w0
           E0_clock_ok (no_bounds_ok _ _) (conj eq_refl eq_refl)).
Defined.

(** C1 as it is stated fails in the trailing-window mode.  With the day
    count 0 an event of the year 2000 passes the check, though it is not
    in the window [now - 0 days, now]; with the day count 800000 the check
    raises [OverflowError] on an event that is in the window. *)
Lemma trailing_window_fails :
  (let r := mkreader "sync.ics" (Some 0) None None in
   let s := mkdatetime 2000 1 1 0 0 0 0 utc false in
   active_mode r = Trailing 0
   /\ fst (_is_event_in_range E0 r s w0) = Ok true
   /\ ~ in_range (active_mode r) (clock E0 (ticks w0)) s)
  /\ (let r := mkreader "sync.ics" (Some 800000) None None in
      let s := mkdatetime 2024 1 10 0 0 0 0 utc false in
      active_mode r = Trailing 800000
      /\ fst (_is_event_in_range E0 r s w0) = Raise OverflowError
      /\ in_range (active_mode r) (clock E0 (ticks w0)) s).
Proof.
  split; cbv zeta; (split; [reflexivity|]); (split; [vm_compute; reflexivity|]).
  - intros [H _]. vm_compute in H. apply H. reflexivity.
  - split; vm_compute; discriminate.
Qed.

(** C7.  When neither dates nor a day count are given, the reader has no
    bound at all and its range check passes every event, whatever the
    start, without reading the clock. *)
Theorem unbounded_passes (E : env) (path : string) :
  __init__ E path None None None = Ok (mkreader path None None None)
  /\ forall (s : datetime) (w : world),
       _is_event_in_range E (mkreader path None None None) s w = (Ok true, w).
Proof.
  split; [reflexivity|]. intros s w.
  apply in_range_falsy; [now left|reflexivity].
Qed.

(** C10.  With the day count 0 and no dates every event passes the range
    check, the whole run is the run with no day count at all, and the
    clock is read for the window comparison exactly when the day count is
    not 0. *)
Theorem zero_days_is_unbounded (E : env) (path : string) :
  (forall s w,
     _is_event_in_range E (mkreader path (Some 0) None None) s w = (Ok true, w))
  /\ (forall w, main E path (Some 0) None None w = main E path None None None w)
  /\ (forall n s w,
        ticks (snd (_is_event_in_range E (mkreader path (Some n) None None) s w))
        = if n =? 0 then ticks w else S (ticks w)).
Proof.
  split; [reflexivity|]. split.
  - intros w. unfold main. rewrite !init_no_dates.
    unfold read_events, bind, lift. cbv beta iota. cbn [_file_path].
    destruct (walk_file E path) as [cs|e]; [|reflexivity].
    rewrite (collect_events_ext E (mkreader path (Some 0) None None)
               (mkreader path None None None)); reflexivity.
  - intros n s w. destruct (Z.eqb_spec n 0) as [->|Hn]; [reflexivity|].
    rewrite in_range_trailing_tick; [reflexivity|now left|].
    cbn [int_truthy _days_before]. now apply negb_true_iff, Z.eqb_neq.
Qed.

(** *** Reading the clock *)

(** C4, as amended.  In the trailing-window mode (no interval, a day
    count other than 0) the current instant is read once at each range
    check, that is once for each VEVENT component the loop gets through,
    and both bounds of a check come from the reading taken at that check. *)
Theorem clock_read_per_event (E : env) (r : CalendarReader) :
  (_start_date r = None \/ _end_date r = None) ->
  int_truthy (_days_before r) = true ->
  (forall s w, snd (_is_event_in_range E r s w) = tick w)
  /\ (forall components events w events' w',
        collect_events E r components events w = (Ok events', w') ->
        ticks w' = (ticks w + length (List.filter is_vevent components))%nat)
  /\ (forall n s w,
        clock_ok E -> normalized s -> _days_before r = Some n ->
        1 <= toordinal (clock E (ticks w)) - n <= _MAXORDINAL ->
        fst (_is_event_in_range E r s w)
        = Ok ((instant (clock E (ticks w)) - n * US_PER_DAY <=? instant s)
              && (instant s <=? instant (clock E (ticks w))))).
Proof.
  intros Hno Ht. split; [|split].
  - intros s w. now apply in_range_trailing_tick.
  - intros components. now apply collect_events_ticks.
  - intros n s w HE Ns Hn Hrep.
    rewrite (in_range_trailing E r s w n); auto.
    rewrite Hn in Ht. cbn [int_truthy] in Ht.
    now apply negb_true_iff, Z.eqb_neq in Ht.
Qed.

Lemma clock_read_per_event_witness :
  let r := mkreader "twins.ics" (Some 1) None None in
  let twins :=
    [ vcalendar;
      vevent (DtDatetime noon_01) "First" accepted_attendee;
      vevent (DtDatetime noon_01) "Second" accepted_attendee ] in
  (_start_date r = None \/ _end_date r = None)
  /\ int_truthy (_days_before r) = true
  /\ snd (_is_event_in_range E0 r noon_01 w0) = tick w0
  /\ (collect_events E0 r twins [] w0
      = (Ok [mkevent (Some "Second") noon_01 "ACCEPTED"], mkworld 2 [])
      /\ ticks (mkworld 2 [])
         = (ticks w0 + length (List.filter is_vevent twins))%nat)
  /\ fst (_is_event_in_range E0 r noon_01 w0)
     = Ok ((instant (clock E0 (ticks w0)) - 1 * US_PER_DAY <=? instant noon_01)
           && (instant noon_01 <=? instant (clock E0 (ticks w0)))).
Proof.
  cbv zeta.
  destruct (clock_read_per_event E0 (mkreader "twins.ics" (Some 1) None None)
              (or_introl eq_refl) eq_refl) as (Hcheck & Hloop & Hbounds).
  split; [now left|]. split; [reflexivity|]. split; [apply Hcheck|].
  split; [split; [reflexivity|]|].
  - apply (Hloop _ [] w0 [mkevent (Some "Second") noon_01 "ACCEPTED"]).
    reflexivity.
  - apply Hbounds.
    + exact E0_clock_ok.
    + split; reflexivity.
    + reflexivity.
    + split; vm_compute; discriminate.
Defined.

(** C4 as it is stated fails.  Two events start at the same instant, one
    second after the first clock reading; the run reads the clock twice,
    drops the first event, which starts after the first reading, and keeps
    the second, which does not start after the second reading. *)
Lemma now_resampled_between_events :
  let r := mkreader "twins.ics" (Some 1) None None in
  read_events E0 r w0
  = (Ok [mkevent (Some "Second") noon_01 "ACCEPTED"], mkworld 2 [])
  /\ ticks (snd (read_events E0 r w0)) <> S (ticks w0).
Proof. cbv zeta. split; [vm_compute; reflexivity|vm_compute; discriminate]. Qed.

(** *** Attendance *)

(** C2, as amended.  For every event other than one with a single
    attendee whose address is the empty text, the attendance is
    ["ACCEPTED"] exactly when at least one of its attendees carries a
    [PARTSTAT] parameter equal to ["ACCEPTED"], compared as it is written;
    it is ["DECLINED"] in every other case, and so for an event without
    attendees. *)
Theorem attendance_accepted_iff (c : component) :
  ~ lone_attendee_without_address c ->
  (_get_attendee_status c = "ACCEPTED" <-> some_attendee_accepted c)
  /\ (_get_attendee_status c <> "ACCEPTED" -> _get_attendee_status c = "DECLINED")
  /\ (get_attendee c = None -> _get_attendee_status c = "DECLINED").
Proof.
  unfold _get_attendee_status, some_attendee_accepted,
    lone_attendee_without_address.
  destruct (get_attendee c) as [[a|l]|]; intros Hlone.
  - cbn [attendees_truthy attendee_list].
    destruct (String.eqb_spec (address a) "") as [He|He]; cbn [negb].
    { destruct Hlone. now exists a. }
    cbn [first_accepted].
    destruct (partstat_accepted a) eqn:Ha.
    + split; [|split; [congruence|discriminate]].
      split; [|reflexivity]. intros _. now apply partstat_accepted_spec.
    + split; [|split; [reflexivity|discriminate]].
      split; [discriminate|]. intros H.
      apply partstat_accepted_spec in H. congruence.
  - cbn [attendees_truthy attendee_list].
    destruct l as [|x l].
    + split; [|split; [reflexivity|discriminate]].
      split; [discriminate|]. intros H. inversion H.
    + destruct (first_accepted_spec (x :: l)) as [[-> Hex]|[-> Hex]].
      * split; [tauto|]. split; [congruence|discriminate].
      * split; [|split; reflexivity].
        split; [discriminate|]. intros H. contradiction.
  - cbn [attendees_truthy].
    split; [|split; reflexivity]. split; [discriminate|]. intros [].
Qed.

Lemma attendance_accepted_iff_witness :
  let c := vevent (DtDate (mkdate 2024 1 10)) "Sync" accepted_attendee in
  ~ lone_attendee_without_address c
  /\ some_attendee_accepted c
  /\ _get_attendee_status c = "ACCEPTED".
Proof.
  cbv zeta.
  assert (~ lone_attendee_without_address
              (vevent (DtDate (mkdate 2024 1 10)) "Sync" accepted_attendee))
    as Hlone by (intros (a & [= <-] & H); discriminate).
  assert (some_attendee_accepted
            (vevent (DtDate (mkdate 2024 1 10)) "Sync" accepted_attendee))
    as Hsome by (exists {[ "PARTSTAT" := "ACCEPTED" ]}; split; reflexivity).
  split; [exact Hlone|]. split; [exact Hsome|].
  exact (proj2 (proj1 (attendance_accepted_iff _ Hlone)) Hsome).
Defined.

(** C2 as it is stated fails.  An event has one attendee, which carries
    [PARTSTAT] equal to ["ACCEPTED"] and has the empty text for address
    (the line [ATTENDEE;PARTSTAT=ACCEPTED:]): its attendance is
    ["DECLINED"]. *)
Lemma accepted_attendee_without_address :
  let c :=
    mkcomponent "VEVENT" (Some (DtDate (mkdate 2024 1 10))) (Some "Sync")
      (Some (One (mkaddr "" (Some {[ "PARTSTAT" := "ACCEPTED" ]})))) in
  some_attendee_accepted c
  /\ _get_attendee_status c = "DECLINED"
  /\ _get_attendee_status c <> "ACCEPTED".
Proof.
  cbv zeta. split; [|split; [reflexivity|discriminate]].
  exists {[ "PARTSTAT" := "ACCEPTED" ]}. split; reflexivity.
Qed.

(** *** Normalization of the start *)

(** C3.  A date-only start becomes that date at 00:00:00 with UTC
    attached; a datetime without time zone keeps its clock fields and gets
    UTC attached; a datetime with a time zone, of whatever kind, is
    returned as it is, so it denotes the same instant. *)
Theorem start_normalization :
  (forall d : date,
     normalize_start (DtDate d)
     = mkdatetime (d_year d) (d_month d) (d_day d) 0 0 0 0 utc false
     /\ instant (normalize_start (DtDate d))
        = _ymd2ord (d_year d) (d_month d) (d_day d) * US_PER_DAY)
  /\ (forall y m d h mi s us f,
        normalize_start (DtDatetime (mkdatetime y m d h mi s us None f))
        = mkdatetime y m d h mi s us utc f)
  /\ (forall y m d h mi s us tz f,
        normalize_start (DtDatetime (mkdatetime y m d h mi s us (Some tz) f))
        = mkdatetime y m d h mi s us (Some tz) f
        /\ instant (normalize_start
                      (DtDatetime (mkdatetime y m d h mi s us (Some tz) f)))
           = instant (mkdatetime y m d h mi s us (Some tz) f)).
Proof.
  split; [|split].
  - intros d. split; [reflexivity|].
    unfold instant, wall_us, toordinal, utcoffset, US_PER_DAY; simpl. lia.
  - reflexivity.
  - intros. split; reflexivity.
Qed.

(** *** Sorting *)

(** C5, as amended.  When the loop of [read_events] has kept the events
    [events] and their starts are in step, that is when no two of them
    carry the same [tzinfo] object with clock fields in another order
    than their instants, [read_events] returns a list that is in
    non-decreasing order of start instant, holds the same events, and
    lists the events of each instant in the order they have in
    [events]. *)
Theorem read_events_sorted_stable (E : env) (r : CalendarReader) (w w' : world)
    (components : list component) (events : list CalendarEvent) :
  walk_file E (_file_path r) = Ok components ->
  Forall (fun c => valid_component c = true) components ->
  collect_events E r components [] w = (Ok events, w') ->
  chronological events ->
  exists out,
    read_events E r w = (Ok out, w')
    /\ StronglySorted by_instant out
    /\ out ≡ₚ events
    /\ forall t, List.filter (at_instant t) out
                 = List.filter (at_instant t) events.
Proof.
  intros Hwalk Hvalid Hloop Hstep.
  assert (Forall (fun x => normalized (start x)) events) as Hn
    by (eapply collect_events_normalized; [exact Hvalid| |exact Hloop];
        constructor).
  destruct (sorted_by_start_spec events Hn Hstep) as (out & Ho & Hs & Hp & Hf).
  exists out. split; [|auto].
  unfold read_events, bind, lift. rewrite Hwalk, Hloop, Ho. reflexivity.
Qed.

Lemma read_events_sorted_stable_witness :
  let r := mkreader "sync.ics" None None None in
  let components :=
    [ vcalendar;
      vevent (DtDate (mkdate 2024 1 5)) "Review" accepted_attendee;
      vevent (DtDate (mkdate 2024 1 1)) "Sync" accepted_attendee;
      vevent (DtDate (mkdate 2024 1 3)) "Retro" declined_attendee ] in
  let events :=
    [ mkevent (Some "Review") (mkdatetime 2024 1 5 0 0 0 0 utc false) "ACCEPTED";
      mkevent (Some "Sync") (mkdatetime 2024 1 1 0 0 0 0 utc false) "ACCEPTED" ] in
  walk_file E0 (_file_path r) = Ok components
  /\ Forall (fun c => valid_component c = true) components
  /\ collect_events E0 r components [] w0 = (Ok events, w0)
  /\ chronological events
  /\ exists out,
       read_events E0 r w0 = (Ok out, w0)
       /\ StronglySorted by_instant out
       /\ out ≡ₚ events
       /\ forall t, List.filter (at_instant t) out
                    = List.filter (at_instant t) events.
Proof.
  cbv zeta.
  assert (chronological
            [ mkevent (Some "Review") (mkdatetime 2024 1 5 0 0 0 0 utc false)
                "ACCEPTED";
              mkevent (Some "Sync") (mkdatetime 2024 1 1 0 0 0 0 utc false)
                "ACCEPTED" ]) as Hstep.
  { intros a b Ha Hb. apply in_step_fixed.
    - destruct Ha as [<-|[<-|[]]]; reflexivity.
    - destruct Hb as [<-|[<-|[]]]; reflexivity.
    - left. destruct Ha as [<-|[<-|[]]]; reflexivity. }
  split; [reflexivity|]. split; [repeat constructor|]. split; [reflexivity|].
  split; [exact Hstep|].
  apply (read_events_sorted_stable E0 (mkreader "sync.ics" None None None)
           w0 w0
           [ vcalendar;
             vevent (DtDate (mkdate 2024 1 5)) "Review" accepted_attendee;
             vevent (DtDate (mkdate 2024 1 1)) "Sync" accepted_attendee;
             vevent (DtDate (mkdate 2024 1 3)) "Retro" declined_attendee ]).
  - reflexivity.
  - repeat constructor.
  - reflexivity.
  - exact Hstep.
Defined.

(** C5 as it is stated fails.  Two accepted events start on 31 March 2024
    in the zone of Warsaw, one at 03:00 and, listed after it, one at
    02:30, a clock time of the hour that is skipped that night.  Both
    starts carry the same [tzinfo] object, so that [sorted] compares
    their clock fields and puts 02:30 first; but 02:30 denotes 01:30 UTC
    and 03:00 denotes 01:00 UTC: the list returned is not in order of
    start instant. *)
Lemma gap_starts_out_of_order :
  let r := mkreader "warsaw.ics" None None None in
  let at_0230 := mkevent (Some "Gap") warsaw_0230 "ACCEPTED" in
  let at_0300 := mkevent (Some "After") warsaw_0300 "ACCEPTED" in
  read_events E0 r w0 = (Ok [at_0230; at_0300], w0)
  /\ start_instant at_0300 < start_instant at_0230
  /\ ~ StronglySorted by_instant [at_0230; at_0300].
Proof.
  cbv zeta. split; [vm_compute; reflexivity|]. split; [reflexivity|].
  intros H. apply StronglySorted_inv in H as [_ H].
  apply Forall_inv in H. vm_compute in H. now apply H.
Qed.

(** *** Printing *)




(** C8.  When the loop keeps no event, the run ends without an exception
    and the one text handed to [print] is the empty text. *)
Theorem no_events_prints_empty (E : env) (path : string) (days : option Z)
    (sd ed : option string) (r : CalendarReader)
    (components : list component) (w w' : world) :
  __init__ E path days sd ed = Ok r ->
  walk_file E path = Ok components ->
  collect_events E r components [] w = (Ok [], w') ->
  main E path days sd ed w
  = (Ok tt, mkworld (ticks w') (stdout w' ++ [""])).
Proof.
  intros Hinit Hwalk Hloop. unfold main, read_events, bind, lift.
  rewrite Hinit. cbv beta iota. rewrite (init_file_path _ _ _ _ _ _ Hinit).
  rewrite Hwalk, Hloop. reflexivity.
Qed.

Lemma no_events_prints_empty_witness :
  let r := mkreader "declined.ics" None None None in
  let components :=
    [ vcalendar;
      vevent (DtDate (mkdate 2024 1 10)) "Sync" declined_attendee ] in
  __init__ E0 "declined.ics" None None None = Ok r
  /\ walk_file E0 "declined.ics" = Ok components
  /\ collect_events E0 r components [] w0 = (Ok [], w0)
  /\ main E0 "declined.ics" None None None w0
     = (Ok tt, mkworld (ticks w0) (stdout w0 ++ [""])).
Proof.
  cbv zeta. split; [reflexivity|]. split; [reflexivity|]. split; [reflexivity|].
  apply (no_events_prints_empty E0 "declined.ics" None None None
           (mkreader "declined.ics" None None None)
           [ vcalendar;
             vevent (DtDate (mkdate 2024 1 10)) "Sync" declined_attendee ]
           w0 w0); reflexivity.
Defined.

(** *** The command line *)



(** *** Runs of the script on the fixtures *)

(** The interval from [01_01_2024] to [31_01_2024] ends at midnight of
    31 January, that instant included: an event at that instant passes, an
    event of 1 February does not. *)
Example interval_of_january :
  exists r,
    __init__ E0 "sync.ics" None (Some "01_01_2024") (Some "31_01_2024") = Ok r
    /\ _is_event_in_range E0 r (normalize_start (DtDate (mkdate 2024 1 31))) w0
       = (Ok true, w0)
    /\ _is_event_in_range E0 r (normalize_start (DtDate (mkdate 2024 2 1))) w0
       = (Ok false, w0).
Proof. eexists. split; [reflexivity|]. split; vm_compute; reflexivity. Qed.

(** Unbounded range (day count 0): the two accepted events, the earlier
    one first, joined by a space and a line feed. *)
Example run_sorted_output :
  script E0 ["prog"; "sync.ics"; "0"] w0
  = (Ok tt,
     mkworld 0
       ["project meeting: Sync_01.01.2024;" +:+ separator
        +:+ "project meeting: Review_05.01.2024;"]).
Proof. vm_compute. reflexivity. Qed.

(** Trailing window of 12 days before 15 January 2024, 12:00: the event
    of 1 January is too old. *)
Example run_trailing_window :
  script E0 ["prog"; "sync.ics"; "12"] w0
  = (Ok tt, mkworld 3 ["project meeting: Review_05.01.2024;"]).
Proof. vm_compute. reflexivity. Qed.

(** Explicit interval: the event of 5 January lies after 4 January. *)
Example run_explicit_interval :
  script E0 ["prog"; "sync.ics"; "01_01_2024"; "04_01_2024"] w0
  = (Ok tt, mkworld 0 ["project meeting: Sync_01.01.2024;"]).
Proof. vm_compute. reflexivity. Qed.

(** Both ends of the interval are included. *)
Example run_interval_ends_included :
  script E0 ["prog"; "sync.ics"; "01_01_2024"; "05_01_2024"] w0
  = script E0 ["prog"; "sync.ics"; "0"] w0.
Proof. vm_compute. reflexivity. Qed.

(** The only event was declined: the empty text is printed. *)
Example run_declined :
  script E0 ["prog"; "declined.ics"; "0"] w0 = (Ok tt, mkworld 0 [""]).
Proof. vm_compute. reflexivity. Qed.

(** A date that [strptime] refuses ends the run with [ValueError]. *)
Example run_malformed_date :
  script E0 ["prog"; "sync.ics"; "2024-01-01"; "04_01_2024"] w0
  = (Raise ValueError, w0).
Proof. vm_compute. reflexivity. Qed.

(** The participation status is compared as it is written. *)
Example lower_case_partstat_is_declined :
  _get_attendee_status
    (vevent (DtDate (mkdate 2024 1 10)) "Sync"
       (mkaddr "mailto:ann@example.com" (Some {[ "PARTSTAT" := "accepted" ]})))
  = "DECLINED".
Proof. vm_compute. reflexivity. Qed.

End omnimat_spec.

(** ** Further properties of the program *)

Module omnimat_more.
Import pydatetime icalendar omnimat spec_terms fixtures omnimat_rest.
Import ordinal_checks numeral_checks.
Import pydatetime_facts omnimat_facts.

(** *** What is written to standard output *)

Lemma in_range_stdout E r s w :
  stdout (snd (_is_event_in_range E r s w)) = stdout w.
Proof.
  unfold _is_event_in_range, bind, lift, ret, now.
  destruct (_start_date r), (_end_date r);
    repeat match goal with
           | |- context [match ?x with _ => _ end] => destruct x
           | |- context [if ?x then _ else _] => destruct x
           end; reflexivity.
Qed.

Lemma collect_events_stdout E r components :
  forall events w,
    stdout (snd (collect_events E r components events w)) = stdout w.
Proof.
  induction components as [|c rest IH]; intros events w; [reflexivity|].
  cbn [collect_events].
  destruct (String.eqb (name c) "VEVENT"); [|apply IH].
  destruct (get_dtstart c) as [raw|]; [|reflexivity].
  unfold bind.
  pose proof (in_range_stdout E r (normalize_start raw) w) as Hw.
  destruct (_is_event_in_range E r (normalize_start raw) w) as [[[|]|e] w1];
    cbn [snd] in Hw; rewrite <- Hw; [|apply IH|reflexivity].
  destruct (String.eqb (_get_attendee_status c) "ACCEPTED"); apply IH.
Qed.

(** [read_events] prints nothing, whether it returns or raises. *)
Lemma read_events_stdout E r w :
  stdout (snd (read_events E r w)) = stdout w.
Proof.
  unfold read_events, bind, lift.
  destruct (walk_file E (_file_path r)) as [cs|e]; [|reflexivity].
  pose proof (collect_events_stdout E r cs [] w) as Hw.
  destruct (collect_events E r cs [] w) as [[evs|e] w1]; [|exact Hw].
  now destruct (sorted_by_start evs).
Qed.

Lemma main_stdout E path days sd ed w :
  match main E path days sd ed w with
  | (Ok _, w') => exists text, stdout w' = stdout w ++ [text]
  | (Raise _, w') => stdout w' = stdout w
  end.
Proof.
  unfold main, bind, lift.
  destruct (__init__ E path days sd ed) as [r|e]; [|reflexivity].
  pose proof (read_events_stdout E r w) as Hw.
  destruct (read_events E r w) as [[evs|e] w1]; cbn [snd] in Hw; [|exact Hw].
  unfold print_events, print. cbn [stdout]. rewrite Hw. eauto.
Qed.

(** X1.  [main] prints all or nothing.  When it returns, it has handed
    exactly one text to [print]; when it raises, whatever the exception,
    standard output is as it was. *)
Theorem main_prints_all_or_nothing (E : env) (path : string)
    (days : option Z) (sd ed : option string) (w : world) :
  match main E path days sd ed w with
  | (Ok _, w') => exists text, stdout w' = stdout w ++ [text]
  | (Raise _, w') => stdout w' = stdout w
  end.
Proof.
  unfold main, bind, lift.
  destruct (__init__ E path days sd ed) as [r|e]; [|reflexivity].
  pose proof (read_events_stdout E r w) as Hw.
  destruct (read_events E r w) as [[evs|e] w1]; cbn [snd] in Hw; [|exact Hw].
  exists (join space_newline (map format_event evs)).
  unfold print_events, print. cbn [stdout]. now rewrite Hw.
Qed.

(** X2.  A run of the script ends in one of three ways: it returns, having
    printed one text; it exits with status 1, having printed the two usage
    lines or the message about the number of days, and nothing else; or it
    raises another exception, having printed nothing. *)
Theorem script_outcomes (E : env) (argv : list string) (w : world) :
  match script E argv w with
  | (Ok _, w') => exists text, stdout w' = stdout w ++ [text]
  | (Raise e, w') =>
      (e = SystemExit 1
       /\ (stdout w' = stdout w ++ [usage_1; usage_2]
           \/ stdout w' = stdout w ++ [not_an_integer]))
      \/ stdout w' = stdout w
  end.
Proof.
  assert (match (print usage_1 >> print usage_2 >> sys_exit (A:=unit) 1) w with
          | (Ok _, w') => exists text, stdout w' = stdout w ++ [text]
          | (Raise e, w') =>
              (e = SystemExit 1
               /\ (stdout w' = stdout w ++ [usage_1; usage_2]
                   \/ stdout w' = stdout w ++ [not_an_integer]))
              \/ stdout w' = stdout w
          end) as Husage.
  { unfold bind, print, sys_exit, raise. cbn [ticks stdout].
    left. split; [reflexivity|]. left. now rewrite <- app_assoc. }
  destruct argv as [|a0 [|a1 [|a2 [|a3 [|a4 rest]]]]]; try exact Husage.
  - cbn [script]. unfold except_ValueError, bind at 1, lift.
    destruct (py_int E a2) as [n|].
    + pose proof (main_stdout E a1 (Some n) None None w) as Hm.
      destruct (main E a1 (Some n) None None w) as [[u|e] w1].
      * exact Hm.
      * destruct e; try (right; exact Hm).
        unfold bind, print, sys_exit, raise. cbn [ticks stdout].
        left. split; [reflexivity|]. right. now rewrite Hm.
    + unfold bind, print, sys_exit, raise. cbn [ticks stdout].
      left. split; [reflexivity|]. now right.
  - cbn [script].
    pose proof (main_stdout E a1 None (Some a2) (Some a3) w) as Hm.
    destruct (main E a1 None (Some a2) (Some a3) w) as [[u|e] w1].
    + exact Hm.
    + right. exact Hm.
Qed.

(** X3.  In the form with a day count the handler of [ValueError] covers
    the whole of [main]: when the number is a good integer but opening or
    parsing the file raises [ValueError], the script still prints the
    message about the number of days and exits with status 1; any other
    exception of the loader leaves the script as it is, nothing printed. *)
Theorem loader_error_in_day_form (E : env) (prog path arg : string) (n : Z)
    (e : exn) (w : world) :
  py_int E arg = Some n ->
  walk_file E path = Raise e ->
  script E [prog; path; arg] w
  = match e with
    | ValueError =>
        (Raise (SystemExit 1),
         mkworld (ticks w) (stdout w ++ [not_an_integer]))
    | _ => (Raise e, w)
    end.
Proof.
  intros Hint Hwalk. cbn [script].
  unfold except_ValueError, bind at 1, lift. rewrite Hint.
  unfold main, bind, lift. rewrite init_no_dates.
  unfold read_events, bind, lift. cbn [_file_path]. rewrite Hwalk.
  destruct e; reflexivity.
Qed.

Lemma loader_error_in_day_form_witness :
  py_int E1 "7" = Some 7
  /\ walk_file E1 "broken.ics" = Raise ValueError
  /\ script E1 ["prog"; "broken.ics"; "7"] w0
     = (Raise (SystemExit 1),
        mkworld (ticks w0) (stdout w0 ++ [not_an_integer])).
Proof.
  split; [reflexivity|]. split; [reflexivity|].
  exact (loader_error_in_day_form E1 "prog" "broken.ics" "7" 7 ValueError w0
           eq_refl eq_refl).
Defined.

(** *** The constructor *)

Lemma parse_bound_result E s :
  parse_bound E s = if unparsable E s then Raise ValueError
                    else parse_bound E s.
Proof.
  unfold unparsable, parse_bound.
  destruct (str_truthy s); [|reflexivity].
  now destruct (strptime_d_m_Y E (default "" s)).
Qed.

Lemma parse_bound_ok E s :
  unparsable E s = false -> exists b, parse_bound E s = Ok b.
Proof.
  unfold unparsable, parse_bound.
  destruct (str_truthy s); [|eauto].
  destruct (strptime_d_m_Y E (default "" s)); [eauto|discriminate].
Qed.

Lemma init_result E path days sd ed :
  if unparsable E sd || unparsable E ed
  then __init__ E path days sd ed = Raise ValueError
  else exists r, __init__ E path days sd ed = Ok r.
Proof.
  unfold __init__, rbind.
  destruct (unparsable E sd) eqn:Hs.
  - rewrite parse_bound_result, Hs. reflexivity.
  - destruct (parse_bound_ok E sd Hs) as [bs ->].
    destruct (unparsable E ed) eqn:He; cbn [orb].
    + rewrite parse_bound_result, He. reflexivity.
    + destruct (parse_bound_ok E ed He) as [be ->]. eauto.
Qed.

(** X4.  The dates are parsed before the file is opened.  The constructor
    fails exactly when a date that is given (not empty) is refused by
    [strptime], and then with [ValueError]; in that case [main] raises
    [ValueError] with the world untouched, whatever the path. *)
Theorem dates_are_checked_first (E : env) (path : string) (days : option Z)
    (sd ed : option string) (w : world) :
  if unparsable E sd || unparsable E ed
  then __init__ E path days sd ed = Raise ValueError
       /\ main E path days sd ed w = (Raise ValueError, w)
  else exists r, __init__ E path days sd ed = Ok r.
Proof.
  pose proof (init_result E path days sd ed) as H.
  destruct (unparsable E sd || unparsable E ed); [|exact H].
  split; [exact H|]. unfold main, bind, lift. now rewrite H.
Qed.

(** X5.  A date given as the empty text counts as not given, and one date
    alone does not filter: when the constructor succeeds without a day
    count and at least one of the two dates is absent or empty, the
    range check passes every event, whatever its start. *)
Theorem empty_date_disables_filter (E : env) (path : string)
    (sd ed : option string) (r : CalendarReader) :
  __init__ E path None sd ed = Ok r ->
  str_truthy sd = false \/ str_truthy ed = false ->
  forall (s : datetime) (w : world),
    _is_event_in_range E r s w = (Ok true, w).
Proof.
  unfold __init__, rbind. intros Hinit Hempty s w.
  destruct (parse_bound E sd) as [bs|] eqn:Es; [|discriminate].
  destruct (parse_bound E ed) as [be|] eqn:Ee; [|discriminate].
  injection Hinit as <-.
  apply in_range_falsy; [|reflexivity]. cbn [_start_date _end_date].
  unfold parse_bound in Es, Ee.
  destruct Hempty as [H|H]; rewrite H in *; [left|right]; congruence.
Qed.

Lemma empty_date_disables_filter_witness :
  __init__ E0 "sync.ics" None (Some "01_01_2024") (Some "")
  = Ok (mkreader "sync.ics" None
          (Some (mkdatetime 2024 1 1 0 0 0 0 utc false)) None)
  /\ (str_truthy (Some "01_01_2024") = false \/ str_truthy (Some "") = false)
  /\ _is_event_in_range E0
       (mkreader "sync.ics" None (Some (mkdatetime 2024 1 1 0 0 0 0 utc false)) None)
       (mkdatetime 1999 12 31 0 0 0 0 utc false) w0
     = (Ok true, w0).
Proof.
  split; [reflexivity|]. split; [now right|].
  exact (empty_date_disables_filter E0 "sync.ics"
           (Some "01_01_2024") (Some "") _ eq_refl (or_intror eq_refl)
           (mkdatetime 1999 12 31 0 0 0 0 utc false) w0).
Defined.

(** *** The loop of [read_events] *)

Lemma in_range_outcome E r s w :
  clock_ok E -> reader_ok r -> normalized s ->
  exists w1,
    (exists b, _is_event_in_range E r s w = (Ok b, w1))
    \/ _is_event_in_range E r s w = (Raise OverflowError, w1).
Proof.
  intros HE [Hsd Hed] Ns.
  destruct (_start_date r) as [sd|] eqn:Es, (_end_date r) as [ed|] eqn:Ee.
  1: { exists w. left. eexists. apply (in_range_explicit E r s w sd ed); auto. }
  all: assert (_start_date r = None \/ _end_date r = None) as Hno by auto.
  all: destruct (int_truthy (_days_before r)) eqn:Ht;
    [|exists w; left; exists true; now apply in_range_falsy].
  all: destruct (_days_before r) as [n|] eqn:En; [|discriminate].
  all: cbn [int_truthy] in Ht; apply negb_true_iff, Z.eqb_neq in Ht.
  all: exists (tick w).
  all: destruct (Z_le_dec 1 (toordinal (clock E (ticks w)) - n)) as [Hlo|Hlo];
    [destruct (Z_le_dec (toordinal (clock E (ticks w)) - n) _MAXORDINAL)
       as [Hhi|Hhi]|].
  all: try (left; eexists; apply (in_range_trailing E r s w n); now auto).
  all: right; apply (in_range_trailing_overflow E r s w n); auto; lia.
Qed.

Lemma collect_events_outcome E r components :
  clock_ok E -> reader_ok r ->
  Forall (fun c => valid_component c = true) components ->
  forall events w e w',
    collect_events E r components events w = (Raise e, w') ->
    e = AttributeError \/ e = OverflowError.
Proof.
  intros HE Hr. induction 1 as [|c rest Vc _ IH]; intros events w e w' Hc.
  - discriminate.
  - cbn [collect_events] in Hc.
    destruct (String.eqb (name c) "VEVENT"); [|exact (IH _ _ _ _ Hc)].
    unfold valid_component in Vc.
    destruct (get_dtstart c) as [raw|].
    2: { injection Hc as <- _. now left. }
    unfold bind at 1 in Hc.
    destruct (in_range_outcome E r (normalize_start raw) w HE Hr
                (normalize_start_normalized raw Vc)) as (w1 & [[b Hb]|Hb]);
      rewrite Hb in Hc.
    + destruct b; [|exact (IH _ _ _ _ Hc)].
      destruct (String.eqb (_get_attendee_status c) "ACCEPTED");
        exact (IH _ _ _ _ Hc).
    + injection Hc as <- _. now right.
Qed.

(** X6.  With [datetime] objects from the parser and the clock,
    [read_events] raises only what opening and parsing the file raised,
    [AttributeError] (a VEVENT without [DTSTART]) or [OverflowError] (a
    window that starts before year 1 or after year 9999).  The starts are
    made aware before they are compared, so neither the range check nor
    the sort raises [TypeError]. *)
Theorem read_events_raises_only (E : env) (r : CalendarReader) (w w' : world)
    (e : exn) :
  clock_ok E -> reader_ok r ->
  (forall components,
     walk_file E (_file_path r) = Ok components ->
     Forall (fun c => valid_component c = true) components) ->
  read_events E r w = (Raise e, w') ->
  walk_file E (_file_path r) = Raise e
  \/ e = AttributeError \/ e = OverflowError.
Proof.
  intros HE Hr Hvalid. unfold read_events, bind, lift.
  destruct (walk_file E (_file_path r)) as [cs|e0] eqn:Hwalk.
  2: { intros [= <- _]. now left. }
  specialize (Hvalid cs eq_refl).
  destruct (collect_events E r cs [] w) as [[evs|e1] w1] eqn:Hloop.
  - assert (Forall (fun x => normalized (start x)) evs) as Hn
      by (eapply collect_events_normalized; [exact Hvalid| |exact Hloop];
          constructor).
    destruct (sorted_by_start_total evs Hn) as (out & -> & _). discriminate.
  - intros [= <- _]. right.
    exact (collect_events_outcome E r cs HE Hr Hvalid _ _ _ _ Hloop).
Qed.

Lemma E1_clock_ok : clock_ok E1.
Proof.
  intros i. split; [|reflexivity]. apply valid_datetime_spec.
  pose proof (Z.mod_pos_bound (Z.of_nat i) 60 ltac:(lia)).
  unfold E1, clock_2024;
    cbn [clock year month day hour minute second microsecond tzinfo].
  repeat split; try lia; vm_compute; congruence.
Qed.

Lemma unbounded_reader_ok path days : reader_ok (mkreader path days None None).
Proof. split; cbn [_start_date _end_date]; discriminate. Qed.

Lemma more_files_valid path components :
  more_files path = Ok components ->
  Forall (fun c => valid_component c = true) components.
Proof.
  unfold more_files, files.
  repeat match goal with
         | |- context [if ?b then _ else _] => destruct b
         end; intros [= <-]; repeat constructor.
Qed.

Lemma read_events_raises_only_witness :
  let r := mkreader "nostart.ics" None None None in
  clock_ok E1 /\ reader_ok r
  /\ (forall components,
        walk_file E1 (_file_path r) = Ok components ->
        Forall (fun c => valid_component c = true) components)
  /\ read_events E1 r w0 = (Raise AttributeError, w0)
  /\ (walk_file E1 (_file_path r) = Raise AttributeError
      \/ AttributeError = AttributeError \/ AttributeError = OverflowError).
Proof.
  cbv zeta. split; [exact E1_clock_ok|].
  split; [apply unbounded_reader_ok|].
  split; [intros cs; apply more_files_valid|]. split; [reflexivity|].
  apply (read_events_raises_only E1 (mkreader "nostart.ics" None None None)
           w0 w0 AttributeError E1_clock_ok (unbounded_reader_ok _ _)).
  - intros cs. apply more_files_valid.
  - reflexivity.
Defined.

(** X7.  Only VEVENT components count: the loop gives the same result and
    the same world on the components of the file and on its VEVENT
    components alone. *)
Theorem other_components_are_ignored (E : env) (r : CalendarReader)
    (components : list component) (events : list CalendarEvent) (w : world) :
  collect_events E r components events w
  = collect_events E r (List.filter is_vevent components) events w.
Proof.
  revert events w. induction components as [|c rest IH]; intros events w;
    [reflexivity|].
  cbn [List.filter]. unfold is_vevent at 1.
  destruct (String.eqb (name c) "VEVENT") eqn:Hc.
  - cbn [collect_events]. rewrite Hc.
    destruct (get_dtstart c) as [raw|]; [|reflexivity].
    unfold bind.
    destruct (_is_event_in_range E r (normalize_start raw) w) as [[[|]|e] w1];
      [|apply IH|reflexivity].
    destruct (String.eqb (_get_attendee_status c) "ACCEPTED"); apply IH.
  - cbn [collect_events]. rewrite Hc. apply IH.
Qed.

Lemma collect_events_made_from E r all components :
  incl components all ->
  forall events w events' w',
    Forall (made_from all) events ->
    collect_events E r components events w = (Ok events', w') ->
    Forall (made_from all) events'.
Proof.
  induction components as [|c rest IH]; intros Hincl events w events' w' He Hc.
  - injection Hc as <- _. exact He.
  - assert (incl rest all) as Hrest by (intros x Hx; apply Hincl; now right).
    assert (In c all) as Hin by (apply Hincl; now left).
    cbn [collect_events] in Hc.
    destruct (String.eqb (name c) "VEVENT") eqn:Hv;
      [|exact (IH Hrest _ _ _ _ He Hc)].
    destruct (get_dtstart c) as [raw|] eqn:Hraw; [|discriminate].
    unfold bind at 1 in Hc.
    destruct (_is_event_in_range E r (normalize_start raw) w) as [[b|e] w1];
      [|discriminate].
    destruct b; [|exact (IH Hrest _ _ _ _ He Hc)].
    destruct (String.eqb (_get_attendee_status c) "ACCEPTED") eqn:Ha;
      [|exact (IH Hrest _ _ _ _ He Hc)].
    apply String.eqb_eq in Ha.
    refine (IH Hrest _ _ _ _ _ Hc). apply Forall_app. split; [exact He|].
    constructor; [|constructor]. split; [exact Ha|].
    exists c, raw. rewrite Ha. repeat split; auto.
Qed.

(** X8.  Every event [read_events] returns carries the status
    ["ACCEPTED"] and was made from a VEVENT component of the file: it has
    the summary of that component and its normalized start, and the
    attendee status of that component is ["ACCEPTED"]. *)
Theorem read_events_sound (E : env) (r : CalendarReader) (w w' : world)
    (components : list component) (out : list CalendarEvent) :
  walk_file E (_file_path r) = Ok components ->
  read_events E r w = (Ok out, w') ->
  Forall (made_from components) out.
Proof.
  intros Hwalk. unfold read_events, bind, lift. rewrite Hwalk.
  destruct (collect_events E r components [] w) as [[evs|e] w1] eqn:Hloop;
    [|discriminate].
  destruct (sorted_by_start evs) as [l|] eqn:Hs; [|discriminate].
  intros [= <- _].
  assert (Forall (made_from components) evs) as Hevs.
  { eapply collect_events_made_from; [|constructor|exact Hloop].
    intros x Hx. exact Hx. }
  apply sorted_from_perm in Hs. simpl in Hs.
  rewrite Forall_forall in *. intros x Hx. apply Hevs.
  apply list_elem_of_In in Hx. apply list_elem_of_In. now rewrite <- Hs.
Qed.

Lemma read_events_sound_witness :
  let r := mkreader "sync.ics" None None None in
  exists components out,
    walk_file E0 (_file_path r) = Ok components
    /\ read_events E0 r w0 = (Ok out, w0)
    /\ length out = 2%nat
    /\ Forall (made_from components) out.
Proof.
  cbv zeta. eexists. eexists.
  split; [reflexivity|]. split; [vm_compute; reflexivity|].
  split; [reflexivity|].
  eapply (read_events_sound E0 (mkreader "sync.ics" None None None) w0 w0);
    [reflexivity|vm_compute; reflexivity].
Defined.

(** *** The result of [read_events] as a filter *)

Lemma in_range_without_clock E r s w :
  reads_no_clock r = true -> reader_ok r -> normalized s ->
  _is_event_in_range E r s w = (Ok (in_interval r s), w).
Proof.
  unfold reads_no_clock, in_interval. intros Hm [Hsd Hed] Ns.
  destruct (_start_date r) as [sd|] eqn:Es, (_end_date r) as [ed|] eqn:Ee.
  1: { apply (in_range_explicit E r s w sd ed); auto. }
  all: apply in_range_falsy; [auto|now apply negb_true_iff].
Qed.

Lemma retained_cons keep c rest :
  retained keep (c :: rest) = retained_of keep c ++ retained keep rest.
Proof. reflexivity. Qed.

(** The loop under a verdict [keep] that the range check gives at each
    event, [step] being what a check does to the world. *)
Lemma collect_events_filter E r keep step components :
  (forall s w, normalized s ->
     _is_event_in_range E r s w = (Ok (keep s), step w)) ->
  Forall (fun c => valid_component c = true) components ->
  forallb has_start components = true ->
  forall events w,
    collect_events E r components events w
    = (Ok (events ++ retained keep components),
       Nat.iter (length (List.filter is_vevent components)) step w).
Proof.
  intros Hcheck. induction 1 as [|c rest Vc _ IH]; intros Hs events w.
  - cbn. now rewrite app_nil_r.
  - cbn [forallb] in Hs. apply andb_true_iff in Hs as [Hc Hs].
    specialize (IH Hs). rewrite retained_cons.
    cbn [collect_events List.filter]. unfold retained_of, has_start in *.
    unfold is_vevent in *.
    destruct (String.eqb (name c) "VEVENT"); [|apply IH].
    unfold valid_component in Vc.
    destruct (get_dtstart c) as [raw|]; [|discriminate].
    unfold bind at 1.
    rewrite (Hcheck _ w (normalize_start_normalized raw Vc)).
    cbn [length]. rewrite Nat.iter_succ_r.
    destruct (keep (normalize_start raw)); cbn [andb]; [|apply IH].
    destruct (String.eqb (_get_attendee_status c) "ACCEPTED") eqn:Ha;
      [|apply IH].
    apply String.eqb_eq in Ha. rewrite Ha, IH, <- app_assoc. reflexivity.
Qed.

Lemma collect_events_missing_start E r components :
  reads_no_clock r = true -> reader_ok r ->
  Forall (fun c => valid_component c = true) components ->
  forallb has_start components = false ->
  forall events w,
    collect_events E r components events w = (Raise AttributeError, w).
Proof.
  intros Hm Hr. induction 1 as [|c rest Vc _ IH]; intros Hs events w;
    [discriminate|].
  cbn [forallb] in Hs. cbn [collect_events].
  unfold has_start, is_vevent in Hs.
  destruct (String.eqb (name c) "VEVENT"); [|apply IH; exact Hs].
  unfold valid_component in Vc.
  destruct (get_dtstart c) as [raw|]; [|reflexivity].
  cbn [negb orb andb] in Hs. unfold bind at 1.
  rewrite (in_range_without_clock E r _ w Hm Hr
             (normalize_start_normalized raw Vc)).
  destruct (in_interval r (normalize_start raw)); [|now apply IH].
  destruct (String.eqb (_get_attendee_status c) "ACCEPTED"); now apply IH.
Qed.

(** X9.  With an interval or with no range at all, [read_events] is a
    filter followed by the sort, and leaves the world as it is: when every
    VEVENT has a [DTSTART], it returns the sorted list of the events made
    from the VEVENT components whose attendee status is ["ACCEPTED"] and
    whose normalized start lies in the interval, in the order of the
    file before sorting; when a VEVENT has no [DTSTART], it raises
    [AttributeError]. *)
Theorem read_events_without_clock (E : env) (r : CalendarReader) (w : world)
    (components : list component) :
  reads_no_clock r = true -> reader_ok r ->
  walk_file E (_file_path r) = Ok components ->
  Forall (fun c => valid_component c = true) components ->
  read_events E r w
  = (if forallb has_start components
     then sorted_by_start (retained (in_interval r) components)
     else Raise AttributeError, w).
Proof.
  intros Hm Hr Hwalk Hvalid. unfold read_events, bind, lift. rewrite Hwalk.
  destruct (forallb has_start components) eqn:Hs.
  - rewrite (collect_events_filter E r (in_interval r) (fun w => w));
      auto using in_range_without_clock.
    cbn [app]. f_equal.
    generalize (length (List.filter is_vevent components)).
    intros k. induction k as [|k IHk]; [reflexivity|exact IHk].
  - now rewrite collect_events_missing_start.
Qed.

Lemma iter_tick k w :
  Nat.iter k tick w = mkworld (ticks w + k) (stdout w).
Proof.
  induction k as [|k IH].
  - destruct w. cbn. now rewrite Nat.add_0_r.
  - change (Nat.iter (S k) tick w) with (tick (Nat.iter k tick w)).
    rewrite IH. unfold tick. cbn [ticks stdout]. f_equal. lia.
Qed.

Lemma in_range_still_clock E r s w n now0 :
  (_start_date r = None \/ _end_date r = None) ->
  _days_before r = Some n -> n <> 0 ->
  (forall i, clock E i = now0) ->
  valid_datetime now0 = true -> tzinfo now0 = utc ->
  1 <= toordinal now0 - n <= _MAXORDINAL ->
  normalized s ->
  _is_event_in_range E r s w = (Ok (in_window n now0 s), tick w).
Proof.
  intros Hno Hn Hnz Hclock Vnow Unow Hrep Ns.
  assert (clock_ok E) as HE by (intros i; now rewrite Hclock).
  unfold in_window. rewrite <- (Hclock (ticks w)).
  apply in_range_trailing; auto. now rewrite Hclock.
Qed.

(** X10.  With a day count other than 0 and a clock that reads the same
    instant [now] at every check, [read_events] judges every event
    against one window: when every VEVENT has a [DTSTART] and the day
    [now - n days] is a day of the calendar, it returns the sorted list of
    the accepted events whose normalized start lies between
    [now - n days] and [now], both included, and it has read the clock
    once for each VEVENT. *)
Theorem read_events_with_still_clock (E : env) (r : CalendarReader)
    (w : world) (components : list component) (n : Z) (now0 : datetime) :
  (_start_date r = None \/ _end_date r = None) ->
  _days_before r = Some n -> n <> 0 ->
  (forall i, clock E i = now0) ->
  valid_datetime now0 = true -> tzinfo now0 = utc ->
  1 <= toordinal now0 - n <= _MAXORDINAL ->
  walk_file E (_file_path r) = Ok components ->
  Forall (fun c => valid_component c = true) components ->
  forallb has_start components = true ->
  read_events E r w
  = (sorted_by_start (retained (in_window n now0) components),
     mkworld (ticks w + length (List.filter is_vevent components))
       (stdout w)).
Proof.
  intros Hno Hn Hnz Hclock Vnow Unow Hrep Hwalk Hvalid Hs.
  unfold read_events, bind, lift. rewrite Hwalk.
  rewrite (collect_events_filter E r (in_window n now0) tick); auto.
  - now rewrite iter_tick.
  - intros s w1 Ns. now apply in_range_still_clock.
Qed.

Lemma read_events_with_still_clock_witness :
  let r := mkreader "sync.ics" (Some 12) None None in
  (_start_date r = None \/ _end_date r = None)
  /\ _days_before r = Some 12 /\ 12 <> 0
  /\ (forall i, clock E_still i = noon)
  /\ valid_datetime noon = true /\ tzinfo noon = utc
  /\ 1 <= toordinal noon - 12 <= _MAXORDINAL
  /\ read_events E_still r w0
     = (Ok [mkevent (Some "Review") (mkdatetime 2024 1 5 0 0 0 0 utc false) "ACCEPTED"],
        mkworld 3 []).
Proof.
  cbv zeta.
  assert (1 <= toordinal noon - 12 <= _MAXORDINAL) as Hrep
    by (split; vm_compute; discriminate).
  split; [now left|]. split; [reflexivity|]. split; [lia|].
  split; [reflexivity|]. split; [reflexivity|]. split; [reflexivity|].
  split; [exact Hrep|].
  rewrite (read_events_with_still_clock E_still
             (mkreader "sync.ics" (Some 12) None None) w0
             [ vcalendar;
               vevent (DtDate (mkdate 2024 1 5)) "Review" accepted_attendee;
               vevent (DtDate (mkdate 2024 1 1)) "Sync" accepted_attendee;
               vevent (DtDate (mkdate 2024 1 3)) "Retro" declined_attendee ]
             12 noon);
    try reflexivity; [now left|lia|exact Hrep|repeat constructor].
Defined.

Lemma read_events_without_clock_witness :
  let r := mkreader "nostart.ics" None None None in
  let components :=
    [ vcalendar;
      mkcomponent "VEVENT" None (Some "Sync") (Some (One accepted_attendee)) ] in
  reads_no_clock r = true /\ reader_ok r
  /\ walk_file E1 (_file_path r) = Ok components
  /\ Forall (fun c => valid_component c = true) components
  /\ read_events E1 r w0 = (Raise AttributeError, w0).
Proof.
  cbv zeta. split; [reflexivity|]. split; [apply unbounded_reader_ok|].
  split; [reflexivity|]. split; [repeat constructor|].
  rewrite (read_events_without_clock E1 (mkreader "nostart.ics" None None None)
             w0 [ vcalendar;
                  mkcomponent "VEVENT" None (Some "Sync")
                    (Some (One accepted_attendee)) ]);
    try reflexivity; [apply unbounded_reader_ok|repeat constructor].
Defined.

(** *** Edges of the range check *)

Lemma us_per_day_pos : 0 < US_PER_DAY.
Proof. reflexivity. Qed.

Local Opaque instant US_PER_DAY.

(** X11.  A negative day count asks for a window that ends before it
    starts: the range check, after reading the clock, rejects every
    event. *)
Theorem negative_days_reject (E : env) (r : CalendarReader) (s : datetime)
    (w : world) (n : Z) :
  (_start_date r = None \/ _end_date r = None) ->
  _days_before r = Some n -> n < 0 ->
  clock_ok E -> normalized s ->
  1 <= toordinal (clock E (ticks w)) - n <= _MAXORDINAL ->
  _is_event_in_range E r s w = (Ok false, tick w).
Proof.
  intros Hno Hn Hneg HE Ns Hrep.
  rewrite (in_range_trailing E r s w n); auto; [|lia].
  f_equal. f_equal. apply andb_false_iff.
  pose proof us_per_day_pos.
  destruct (Z.leb_spec (instant (clock E (ticks w)) - n * US_PER_DAY) (instant s));
    [right|now left].
  apply Z.leb_gt. nia.
Qed.

Lemma negative_days_reject_witness :
  let r := mkreader "sync.ics" (Some (-3)) None None in
  (_start_date r = None \/ _end_date r = None)
  /\ _days_before r = Some (-3) /\ -3 < 0
  /\ clock_ok E1 /\ normalized noon
  /\ 1 <= toordinal (clock E1 (ticks w0)) - -3 <= _MAXORDINAL
  /\ _is_event_in_range E1 r noon w0 = (Ok false, tick w0).
Proof.
  cbv zeta.
  assert (1 <= toordinal (clock E1 (ticks w0)) - -3 <= _MAXORDINAL) as Hrep
    by (split; vm_compute; discriminate).
  split; [now left|]. split; [reflexivity|]. split; [lia|].
  split; [exact E1_clock_ok|]. split; [split; reflexivity|].
  split; [exact Hrep|].
  exact (negative_days_reject E1 (mkreader "sync.ics" (Some (-3)) None None)
           noon w0 (-3) (or_introl eq_refl) eq_refl ltac:(lia)
           E1_clock_ok (conj eq_refl eq_refl) Hrep).
Defined.

(** X12.  An interval whose start date lies after its end date is empty:
    the range check rejects every event. *)
Theorem inverted_interval_rejects (E : env) (r : CalendarReader)
    (sd ed s : datetime) (w : world) :
  _start_date r = Some sd -> _end_date r = Some ed ->
  bound_ok sd -> bound_ok ed -> normalized s ->
  instant ed < instant sd ->
  _is_event_in_range E r s w = (Ok false, w).
Proof.
  intros Hsd Hed Nsd Ned Ns Hinv.
  rewrite (in_range_explicit E r s w sd ed); auto.
  f_equal. f_equal. apply andb_false_iff.
  destruct (Z.leb_spec (instant sd) (instant s)); [right|now left].
  apply Z.leb_gt. lia.
Qed.

(** X13.  A longer window keeps what a shorter one keeps: at the same
    clock reading, an event that passes with [n] days passes with any
    larger day count whose window starts on a day of the calendar. *)
Theorem longer_window_keeps (E : env) (r r' : CalendarReader) (s : datetime)
    (w : world) (n n' : Z) :
  (_start_date r = None \/ _end_date r = None) ->
  (_start_date r' = None \/ _end_date r' = None) ->
  _days_before r = Some n -> _days_before r' = Some n' ->
  0 < n <= n' ->
  clock_ok E -> normalized s ->
  1 <= toordinal (clock E (ticks w)) - n' ->
  fst (_is_event_in_range E r s w) = Ok true ->
  fst (_is_event_in_range E r' s w) = Ok true.
Proof.
  intros Hno Hno' Hn Hn' Hle HE Ns Hrep.
  pose proof (toordinal_bounds _ (proj1 (HE (ticks w)))) as Hord.
  rewrite (in_range_trailing E r s w n), (in_range_trailing E r' s w n');
    auto; try lia.
  cbn [fst]. intros [= H]. f_equal.
  apply andb_true_iff in H as [H1 H2]. apply andb_true_iff. split; [|exact H2].
  apply Z.leb_le in H1. apply Z.leb_le. pose proof us_per_day_pos. nia.
Qed.

Local Transparent instant US_PER_DAY.

(** X20.  The end date is the instant of its midnight.  When the end of
    the interval is a date at 00:00:00 UTC, as [strptime] gives for a
    format without time, an event in UTC that starts on that calendar
    date at any later time of the day is rejected. *)
Theorem end_day_is_cut_at_midnight (E : env) (r : CalendarReader)
    (sd ed s : datetime) (w : world) :
  _start_date r = Some sd -> _end_date r = Some ed ->
  bound_ok sd -> bound_ok ed -> normalized s ->
  tzinfo ed = utc -> tzinfo s = utc ->
  time_us ed = 0 -> 0 < time_us s ->
  shown_date s = shown_date ed ->
  _is_event_in_range E r s w = (Ok false, w).
Proof.
  intros Hsd Hed Nsd Ned Ns Ued Us Ted Ts Hdate.
  rewrite (in_range_explicit E r s w sd ed); auto.
  f_equal. f_equal. apply andb_false_iff. right. apply Z.leb_gt.
  unfold instant, utcoffset. rewrite Ued, Us. cbn.
  rewrite !wall_us_split, Ted. unfold toordinal, shown_date in *.
  injection Hdate as -> -> ->. lia.
Qed.

Lemma january_reader_ok :
  reader_ok (mkreader "sync.ics" None
               (Some (mkdatetime 2024 1 1 0 0 0 0 utc false))
               (Some (mkdatetime 2024 1 31 0 0 0 0 utc false))).
Proof.
  split; cbn [_start_date _end_date]; intros d [= <-]; split; reflexivity.
Qed.

Lemma end_day_is_cut_at_midnight_witness :
  let sd := mkdatetime 2024 1 1 0 0 0 0 utc false in
  let ed := mkdatetime 2024 1 31 0 0 0 0 utc false in
  let s := mkdatetime 2024 1 31 9 30 0 0 utc false in
  let r := mkreader "sync.ics" None (Some sd) (Some ed) in
  bound_ok sd /\ bound_ok ed /\ normalized s
  /\ time_us ed = 0 /\ 0 < time_us s /\ shown_date s = shown_date ed
  /\ _is_event_in_range E1 r s w0 = (Ok false, w0).
Proof.
  cbv zeta. do 3 (split; [split; reflexivity|]).
  split; [reflexivity|]. split; [reflexivity|]. split; [reflexivity|].
  apply (end_day_is_cut_at_midnight E1 _
           (mkdatetime 2024 1 1 0 0 0 0 utc false)
           (mkdatetime 2024 1 31 0 0 0 0 utc false)); try reflexivity;
    split; reflexivity.
Defined.

Lemma inverted_interval_rejects_witness :
  let sd := mkdatetime 2024 2 1 0 0 0 0 utc false in
  let ed := mkdatetime 2024 1 1 0 0 0 0 utc false in
  let r := mkreader "sync.ics" None (Some sd) (Some ed) in
  bound_ok sd /\ bound_ok ed /\ normalized noon
  /\ instant ed < instant sd
  /\ _is_event_in_range E1 r noon w0 = (Ok false, w0).
Proof.
  cbv zeta. do 3 (split; [split; reflexivity|]).
  split; [reflexivity|].
  apply (inverted_interval_rejects E1 _
           (mkdatetime 2024 2 1 0 0 0 0 utc false)
           (mkdatetime 2024 1 1 0 0 0 0 utc false)); try reflexivity;
    split; reflexivity.
Defined.

Lemma longer_window_keeps_witness :
  let r := mkreader "sync.ics" (Some 7) None None in
  let r' := mkreader "sync.ics" (Some 30) None None in
  let s := mkdatetime 2024 1 10 0 0 0 0 utc false in
  0 < 7 <= 30 /\ clock_ok E1 /\ normalized s
  /\ 1 <= toordinal (clock E1 (ticks w0)) - 30
  /\ fst (_is_event_in_range E1 r s w0) = Ok true
  /\ fst (_is_event_in_range E1 r' s w0) = Ok true.
Proof.
  cbv zeta.
  assert (1 <= toordinal (clock E1 (ticks w0)) - 30) as Hrep
    by (vm_compute; discriminate).
  assert (fst (_is_event_in_range E1 (mkreader "sync.ics" (Some 7) None None)
                 (mkdatetime 2024 1 10 0 0 0 0 utc false) w0) = Ok true) as Hin
    by (vm_compute; reflexivity).
  split; [lia|]. split; [exact E1_clock_ok|]. split; [split; reflexivity|].
  split; [exact Hrep|]. split; [exact Hin|].
  exact (longer_window_keeps E1 (mkreader "sync.ics" (Some 7) None None)
           (mkreader "sync.ics" (Some 30) None None)
           (mkdatetime 2024 1 10 0 0 0 0 utc false) w0 7 30
           (or_introl eq_refl) (or_introl eq_refl) eq_refl eq_refl
           ltac:(lia) E1_clock_ok (conj eq_refl eq_refl) Hrep Hin).
Defined.

(** *** Sorting again *)

Local Opaque instant.

Lemma insert_by_instant_last e placed :
  Forall (fun x => by_instant x e) placed ->
  insert_by_instant e placed = placed ++ [e].
Proof.
  induction 1 as [|x rest Hx _ IH]; [reflexivity|].
  cbn [insert_by_instant]. unfold by_instant in Hx.
  destruct (Z.ltb_spec (start_instant e) (start_instant x)); [lia|].
  now rewrite IH.
Qed.

Lemma sorted_from_sorted events :
  forall placed,
    Forall (fun x => normalized (start x)) (placed ++ events) ->
    chronological (placed ++ events) ->
    StronglySorted by_instant (placed ++ events) ->
    sorted_from placed events = Ok (placed ++ events).
Proof.
  induction events as [|e rest IH]; intros placed Hn Hc Hs.
  - now rewrite app_nil_r.
  - cbn [sorted_from].
    apply Forall_app in Hn as Hn'. destruct Hn' as [Hp He].
    rewrite insert_by_start_pure; [|now inversion He|].
    2: { rewrite Forall_forall in *. intros x Hx. split; [now apply Hp|].
         apply list_elem_of_In in Hx.
         apply Hc; apply in_or_app; [right; now left|now left]. }
    cbn [rbind].
    assert (Forall (fun x => by_instant x e) placed) as Hlast.
    { apply StronglySorted_app in Hs as (Hcross & _ & _).
      apply Forall_forall. intros x Hx. apply Hcross; [exact Hx|].
      now left. }
    rewrite (insert_by_instant_last e placed Hlast).
    replace (placed ++ e :: rest) with ((placed ++ [e]) ++ rest) in *
      by (now rewrite <- app_assoc).
    now apply IH.
Qed.

Local Transparent instant.

(** X14.  Sorting changes nothing that is in order: on events with
    normalized starts that are in step, [sorted] returns a list already
    in non-decreasing order of start instant as it is, and sorting the
    result of [sorted] once more returns it again. *)
Theorem sorted_keeps_sorted (events : list CalendarEvent) :
  Forall (fun x => normalized (start x)) events ->
  chronological events ->
  (StronglySorted by_instant events -> sorted_by_start events = Ok events)
  /\ (forall out,
        sorted_by_start events = Ok out -> sorted_by_start out = Ok out).
Proof.
  intros Hn Hc. split.
  - intros Hs. now apply (sorted_from_sorted events []).
  - intros out Hout.
    destruct (sorted_by_start_spec events Hn Hc) as (out' & Ho & Hs & Hp & _).
    rewrite Hout in Ho. injection Ho as <-.
    apply (sorted_from_sorted out []); [| |exact Hs]; cbn [app].
    + eapply normalized_perm; [symmetry; exact Hp|exact Hn].
    + eapply chronological_perm; [symmetry; exact Hp|exact Hc].
Qed.

Lemma sorted_keeps_sorted_witness :
  let events :=
    [ mkevent (Some "Sync") (mkdatetime 2024 1 1 0 0 0 0 utc false) "ACCEPTED";
      mkevent (Some "Review") (mkdatetime 2024 1 5 0 0 0 0 utc false) "ACCEPTED" ] in
  Forall (fun x => normalized (start x)) events
  /\ chronological events
  /\ StronglySorted by_instant events
  /\ sorted_by_start events = Ok events.
Proof.
  cbv zeta.
  assert (Forall (fun x => normalized (start x))
            [ mkevent (Some "Sync") (mkdatetime 2024 1 1 0 0 0 0 utc false)
                "ACCEPTED";
              mkevent (Some "Review") (mkdatetime 2024 1 5 0 0 0 0 utc false)
                "ACCEPTED" ]) as Hn
    by (repeat constructor).
  assert (chronological
            [ mkevent (Some "Sync") (mkdatetime 2024 1 1 0 0 0 0 utc false)
                "ACCEPTED";
              mkevent (Some "Review") (mkdatetime 2024 1 5 0 0 0 0 utc false)
                "ACCEPTED" ]) as Hc.
  { intros a b Ha Hb. apply in_step_fixed.
    - destruct Ha as [<-|[<-|[]]]; reflexivity.
    - destruct Hb as [<-|[<-|[]]]; reflexivity.
    - left. destruct Ha as [<-|[<-|[]]]; reflexivity. }
  assert (StronglySorted by_instant
            [ mkevent (Some "Sync") (mkdatetime 2024 1 1 0 0 0 0 utc false)
                "ACCEPTED";
              mkevent (Some "Review") (mkdatetime 2024 1 5 0 0 0 0 utc false)
                "ACCEPTED" ]) as Hs
    by (repeat constructor; vm_compute; discriminate).
  split; [exact Hn|]. split; [exact Hc|]. split; [exact Hs|].
  exact (proj1 (sorted_keeps_sorted _ Hn Hc) Hs).
Defined.

(** *** The printed line *)

Lemma length_append s t :
  String.length (s +:+ t) = (String.length s + String.length t)%nat.
Proof.
  induction s as [|a s IH]; [reflexivity|].
  rewrite append_cons. cbn [String.length]. now rewrite IH.
Qed.

Lemma append_inj_suffix s1 s2 t1 t2 :
  String.length t1 = String.length t2 ->
  s1 +:+ t1 = s2 +:+ t2 -> s1 = s2 /\ t1 = t2.
Proof.
  intros Hlen. revert s2. induction s1 as [|a s1 IH]; intros [|b s2] H.
  - now split.
  - apply (f_equal String.length) in H. rewrite !length_append in H.
    cbn [String.length] in H. lia.
  - apply (f_equal String.length) in H. rewrite !length_append in H.
    cbn [String.length] in H. lia.
  - rewrite !append_cons in H. injection H as -> H.
    destruct (IH _ H) as [-> ->]. now split.
Qed.

Lemma digit_inj a b : digit a = digit b -> a mod 10 = b mod 10.
Proof.
  unfold digit. intros H.
  pose proof (Z.mod_pos_bound a 10 ltac:(lia)).
  pose proof (Z.mod_pos_bound b 10 ltac:(lia)).
  apply (f_equal nat_of_ascii) in H.
  rewrite !nat_ascii_embedding in H by lia. lia.
Qed.

Lemma DD_inj a b : 0 <= a < 100 -> 0 <= b < 100 -> DD a = DD b -> a = b.
Proof.
  unfold DD. intros Ha Hb [= H1 H2].
  apply digit_inj in H1, H2. revert H1 H2. Z.div_mod_to_equations. lia.
Qed.

Lemma year_text_checked :
  check_from year_text_ok 0 (Z.to_nat 10000) = true.
Proof. vm_compute. reflexivity. Qed.

(** The digits of a year denote that year. *)
Lemma plain_year_inj a b :
  0 <= a < 10000 -> 0 <= b < 10000 -> plain_year a = plain_year b -> a = b.
Proof.
  intros Ha Hb H.
  pose proof (check_from_spec _ _ _ year_text_checked a ltac:(lia)) as Ca.
  pose proof (check_from_spec _ _ _ year_text_checked b ltac:(lia)) as Cb.
  unfold year_text_ok in Ca, Cb. rewrite H in Ca.
  destruct (year_of_text (plain_year b)) as [n|]; [|discriminate].
  apply Z.eqb_eq in Ca, Cb. congruence.
Qed.

Lemma number_chars_checked :
  check_from number_chars_ok 0 (Z.to_nat 10000) = true.
Proof. vm_compute. reflexivity. Qed.

Lemma all_chars_app f s t :
  all_chars f (s +:+ t) = all_chars f s && all_chars f t.
Proof.
  induction s as [|a s IH]; [reflexivity|].
  rewrite append_cons. cbn [all_chars]. now rewrite IH, andb_assoc.
Qed.

(** The text of a date is made of digits and dots. *)
Lemma date_chars dt :
  valid_datetime dt = true -> all_chars digit_or_dot (DD_MM_year dt) = true.
Proof.
  rewrite valid_datetime_spec. intros ((Hy & Hm & Hd) & _).
  pose proof (days_in_month_le (year dt) (month dt) Hm).
  pose proof (check_from_spec _ _ _ number_chars_checked (day dt) ltac:(lia))
    as Cd.
  pose proof (check_from_spec _ _ _ number_chars_checked (month dt) ltac:(lia))
    as Cm.
  pose proof (check_from_spec _ _ _ number_chars_checked (year dt) ltac:(lia))
    as Cy.
  unfold number_chars_ok in *. apply andb_true_iff in Cd, Cm, Cy.
  unfold DD_MM_year. rewrite !all_chars_app.
  destruct Cd as [-> _], Cm as [-> _], Cy as [_ ->]. reflexivity.
Qed.

Lemma all_chars_without f c s u v :
  all_chars f s = true -> f c = false -> s <> u +:+ String c v.
Proof.
  intros Hs Hc ->. rewrite all_chars_app in Hs. cbn [all_chars] in Hs.
  rewrite Hc in Hs. cbn [andb] in Hs. now rewrite andb_false_r in Hs.
Qed.

(** A text is cut in one way only at a character that its tail does not
    hold. *)
Lemma cut_at_last c s1 :
  forall s2 t1 t2,
    (forall u v, t1 <> u +:+ String c v) ->
    (forall u v, t2 <> u +:+ String c v) ->
    s1 +:+ String c t1 = s2 +:+ String c t2 -> s1 = s2 /\ t1 = t2.
Proof.
  induction s1 as [|a s1 IH]; intros [|b s2] t1 t2 H1 H2 H.
  - cbn in H. injection H as ->. now split.
  - cbn in H. injection H as _ H. now destruct (H1 s2 t2).
  - cbn in H. injection H as _ H. symmetry in H. now destruct (H2 s1 t1).
  - rewrite !append_cons in H. injection H as -> H.
    destruct (IH _ _ _ H1 H2 H) as [-> ->]. now split.
Qed.

Lemma DD_MM_year_inj a b :
  valid_datetime a = true -> valid_datetime b = true ->
  DD_MM_year a = DD_MM_year b -> shown_date a = shown_date b.
Proof.
  rewrite !valid_datetime_spec.
  intros ((Hya & Hma & Hda) & _) ((Hyb & Hmb & Hdb) & _) H.
  pose proof (days_in_month_le (year a) _ Hma).
  pose proof (days_in_month_le (year b) _ Hmb).
  unfold DD_MM_year in H.
  change (DD (day a) +:+ "." +:+ DD (month a) +:+ "." +:+ plain_year (year a))
    with (String (digit (day a / 10)) (String (digit (day a))
           (String "." (String (digit (month a / 10)) (String (digit (month a))
             (String "." (plain_year (year a)))))))) in H.
  change (DD (day b) +:+ "." +:+ DD (month b) +:+ "." +:+ plain_year (year b))
    with (String (digit (day b / 10)) (String (digit (day b))
           (String "." (String (digit (month b / 10)) (String (digit (month b))
             (String "." (plain_year (year b)))))))) in H.
  injection H as Hd1 Hd2 Hm1 Hm2 Hy.
  unfold shown_date. f_equal; [f_equal|].
  - apply plain_year_inj; [lia|lia|exact Hy].
  - apply DD_inj; [lia|lia|]. unfold DD. congruence.
  - apply DD_inj; [lia|lia|]. unfold DD. congruence.
Qed.

(** X15.  A printed line identifies what it shows: two events with
    [datetime] starts whose lines are the same text have the same summary
    text and start on the same calendar date (year, month and day of
    their own clock fields), although the year takes one to four
    characters and a summary may itself hold digits, dots and
    underscores. *)
Theorem printed_line_identifies_event (a b : CalendarEvent) :
  valid_datetime (start a) = true -> valid_datetime (start b) = true ->
  format_event a = format_event b ->
  summary_text a = summary_text b
  /\ shown_date (start a) = shown_date (start b).
Proof.
  intros Va Vb H.
  rewrite !format_event_text in H by assumption. unfold template_line in H.
  apply (inj (String.append "project meeting: ")) in H.
  change ("_" +:+ ?d +:+ ";") with (String "_" (d +:+ ";")) in H.
  assert (forall dt u v, valid_datetime dt = true ->
            DD_MM_year dt +:+ ";" <> u +:+ String "_" v) as Hcut.
  { intros dt u v V.
    apply (all_chars_without
             (fun ch => digit_or_dot ch || Ascii.eqb ch ";"));
      [|reflexivity].
    rewrite all_chars_app. apply andb_true_iff. split; [|reflexivity].
    pose proof (date_chars dt V) as Hd.
    induction (DD_MM_year dt) as [|ch s IH]; [reflexivity|].
    cbn [all_chars] in *. apply andb_true_iff in Hd as [-> Hd].
    now rewrite IH. }
  apply cut_at_last in H; [|intros u v; now apply Hcut..].
  destruct H as [Hs Ht]. split; [exact Hs|].
  apply append_inj_suffix in Ht; [|reflexivity].
  apply DD_MM_year_inj; tauto.
Qed.

Lemma printed_line_identifies_event_witness :
  let a := mkevent (Some "Sync") (mkdatetime 2024 1 5 10 0 0 0 utc false)
             "ACCEPTED" in
  let b := mkevent (Some "Sync") (mkdatetime 2024 1 5 23 30 0 0 None false)
             "ACCEPTED" in
  valid_datetime (start a) = true /\ valid_datetime (start b) = true
  /\ format_event a = format_event b
  /\ summary_text a = summary_text b
  /\ shown_date (start a) = shown_date (start b).
Proof.
  cbv zeta. split; [reflexivity|]. split; [reflexivity|].
  split; [vm_compute; reflexivity|].
  exact (printed_line_identifies_event
           (mkevent (Some "Sync") (mkdatetime 2024 1 5 10 0 0 0 utc false)
              "ACCEPTED")
           (mkevent (Some "Sync") (mkdatetime 2024 1 5 23 30 0 0 None false)
              "ACCEPTED")
           eq_refl eq_refl eq_refl).
Defined.

(** *** Attendance again *)

Lemma status_is_accepted c :
  _get_attendee_status c = "ACCEPTED"
  <-> attendees_truthy (get_attendee c) = true
      /\ Exists carries_accepted (attendee_list (get_attendee c)).
Proof.
  unfold _get_attendee_status.
  destruct (attendees_truthy (get_attendee c)).
  - destruct (first_accepted_spec (attendee_list (get_attendee c)))
      as [[-> Hex]|[-> Hex]]; [tauto|].
    split; [discriminate|tauto].
  - split; [discriminate|]. intros [H _]. discriminate.
Qed.

Lemma status_is_declined c :
  _get_attendee_status c <> "ACCEPTED" -> _get_attendee_status c = "DECLINED".
Proof.
  unfold _get_attendee_status.
  destruct (attendees_truthy (get_attendee c)); [|reflexivity].
  destruct (first_accepted_spec (attendee_list (get_attendee c)))
    as [[-> _]|[-> _]]; [congruence|reflexivity].
Qed.

Lemma status_of_many c l :
  get_attendee c = Some (Many l) ->
  (_get_attendee_status c = "ACCEPTED" <-> Exists carries_accepted l).
Proof.
  intros H. rewrite status_is_accepted, H. cbn [attendees_truthy attendee_list].
  split; [tauto|]. intros Hex. split; [|exact Hex].
  destruct l; [inversion Hex|reflexivity].
Qed.

(** X16.  For attendees given as a list, the status depends only on who
    is in the list.  Attendees added to the list never turn ["ACCEPTED"]
    into ["DECLINED"]; two lists with the same members give the same
    status, whatever the order and the repetitions. *)
Theorem attendance_depends_on_members (c c' : component)
    (l l' : list vCalAddress) :
  get_attendee c = Some (Many l) -> get_attendee c' = Some (Many l') ->
  ((forall a, In a l -> In a l') ->
   _get_attendee_status c = "ACCEPTED" -> _get_attendee_status c' = "ACCEPTED")
  /\ ((forall a, In a l <-> In a l') ->
      _get_attendee_status c = _get_attendee_status c').
Proof.
  intros Hc Hc'.
  assert (forall m m' d d', get_attendee d = Some (Many m) ->
            get_attendee d' = Some (Many m') ->
            (forall a, In a m -> In a m') ->
            _get_attendee_status d = "ACCEPTED" ->
            _get_attendee_status d' = "ACCEPTED") as Hmono.
  { intros m m' d d' Hd Hd' Hincl.
    rewrite (status_of_many d m Hd), (status_of_many d' m' Hd').
    rewrite !List.Exists_exists. intros (a & Ha & Hacc). exists a. auto. }
  split; [now apply (Hmono l l' c c')|].
  intros Hsame.
  destruct (decide (_get_attendee_status c = "ACCEPTED")) as [Ha|Ha].
  - rewrite Ha. symmetry. apply (Hmono l l' c c'); auto. apply Hsame.
  - rewrite (status_is_declined c Ha). symmetry. apply status_is_declined.
    intros Ha'. apply Ha. apply (Hmono l' l c' c); auto. apply Hsame.
Qed.

Lemma attendance_depends_on_members_witness :
  let c := mkcomponent "VEVENT" None None
             (Some (Many [declined_attendee; accepted_attendee])) in
  let c' := mkcomponent "VEVENT" None None
              (Some (Many [accepted_attendee; declined_attendee;
                           accepted_attendee])) in
  (forall a, In a [declined_attendee; accepted_attendee]
             <-> In a [accepted_attendee; declined_attendee; accepted_attendee])
  /\ _get_attendee_status c = _get_attendee_status c'.
Proof.
  cbv zeta.
  assert (forall a, In a [declined_attendee; accepted_attendee]
                    <-> In a [accepted_attendee; declined_attendee;
                              accepted_attendee]) as H
    by (intros a; simpl; tauto).
  split; [exact H|].
  exact (proj2 (attendance_depends_on_members
                  (mkcomponent "VEVENT" None None
                     (Some (Many [declined_attendee; accepted_attendee])))
                  (mkcomponent "VEVENT" None None
                     (Some (Many [accepted_attendee; declined_attendee;
                                  accepted_attendee])))
                  _ _ eq_refl eq_refl) H).
Defined.

(** X17.  One attendee is not treated like a list of one.  In a list an
    attendee that carries [PARTSTAT] equal to ["ACCEPTED"] makes the event
    accepted; given alone, the same attendee does so only when its
    address text is not empty, because the attendee itself is tested for
    truth before it is put into a list. *)
Theorem lone_attendee_needs_address (c c' : component) (a : vCalAddress) :
  get_attendee c = Some (One a) -> get_attendee c' = Some (Many [a]) ->
  (_get_attendee_status c' = "ACCEPTED" <-> carries_accepted a)
  /\ (_get_attendee_status c = "ACCEPTED"
      <-> carries_accepted a /\ address a <> "").
Proof.
  intros Hc Hc'. split.
  - rewrite (status_of_many c' [a] Hc'). split.
    + intros H. inversion H as [? ? Ha|? ? Hn]; [exact Ha|inversion Hn].
    + intros Ha. now left.
  - rewrite status_is_accepted, Hc. cbn [attendees_truthy attendee_list].
    rewrite negb_true_iff. split.
    + intros [Hne H]. apply String.eqb_neq in Hne.
      inversion H as [? ? Ha|? ? Hn]; [tauto|inversion Hn].
    + intros [Ha Hne]. split; [now apply String.eqb_neq|now left].
Qed.

Lemma lone_attendee_needs_address_witness :
  let a := mkaddr "" (Some {[ "PARTSTAT" := "ACCEPTED" ]}) in
  let c := mkcomponent "VEVENT" None None (Some (One a)) in
  let c' := mkcomponent "VEVENT" None None (Some (Many [a])) in
  get_attendee c = Some (One a) /\ get_attendee c' = Some (Many [a])
  /\ (_get_attendee_status c' = "ACCEPTED" <-> carries_accepted a)
  /\ (_get_attendee_status c = "ACCEPTED"
      <-> carries_accepted a /\ address a <> "").
Proof.
  cbv zeta. split; [reflexivity|]. split; [reflexivity|].
  exact (lone_attendee_needs_address
           (mkcomponent "VEVENT" None None
              (Some (One (mkaddr "" (Some {[ "PARTSTAT" := "ACCEPTED" ]})))))
           (mkcomponent "VEVENT" None None
              (Some (Many [mkaddr "" (Some {[ "PARTSTAT" := "ACCEPTED" ]})])))
           _ eq_refl eq_refl).
Defined.

(** *** Equality of events *)

Lemma fields_eq_wall a b :
  valid_datetime a = true -> valid_datetime b = true ->
  (fields a = fields b <-> wall_us a = wall_us b).
Proof.
  intros Va Vb. rewrite <- tuple_cmp_eq, fields_compare by assumption.
  apply Z.compare_eq_iff.
Qed.

Lemma cmp_int_zero c : (cmp_int c =? 0) = true <-> c = Eq.
Proof. destruct c; cbn; split; congruence. Qed.

(** The test that [_cmp] makes with [allow_mixed]. *)
Lemma fold_check dt :
  offset_eq (utcoffset dt) (utcoffset (replace_fold dt (negb (fold dt))))
  = false
  <-> fold_matters dt.
Proof.
  unfold fold_matters, utcoffset. cbn [tzinfo replace_fold fold].
  change (fields (replace_fold dt (negb (fold dt)))) with (fields dt).
  destruct (tzinfo dt) as [[x|i rule]|]; cbn [offset_eq tz_utcoffset].
  - rewrite Z.eqb_refl. split; [discriminate|]. now intros (? & ? & [=] & _).
  - rewrite Z.eqb_neq. split.
    + intros H. exists i, rule. split; [reflexivity|].
      destruct (fold dt); cbn [negb] in H; congruence.
    + intros (i' & rule' & [= <- <-] & H).
      destruct (fold dt); cbn [negb]; congruence.
  - split; [discriminate|]. now intros (? & ? & [=] & _).
Qed.

Lemma same_object_refl a : same_tzinfo_object a a.
Proof. unfold same_tzinfo_object. now destruct (tzinfo a) as [[x|i f]|]. Qed.

Lemma same_object_sym a b : same_tzinfo_object a b -> same_tzinfo_object b a.
Proof.
  unfold same_tzinfo_object.
  destruct (tzinfo a) as [[x|i f]|], (tzinfo b) as [[y|j g]|]; auto.
Qed.

(** [==] on datetimes raises nothing. *)
Lemma dt_eq_total a b : exists r, dt_eq a b = Ok r.
Proof.
  unfold dt_eq, _cmp.
  repeat match goal with
         | |- context [if ?x then _ else _] => destruct x
         | |- context [match ?x with _ => _ end] => destruct x
         end; cbn [rbind]; eauto.
Qed.

Lemma datetime_eq_spec a b :
  valid_datetime a = true -> valid_datetime b = true ->
  (datetime_eq a b = true <-> same_start a b).
Proof.
  intros Va Vb. unfold datetime_eq, dt_eq, _cmp, same_start. cbn [andb].
  pose proof (tz_is_spec a b) as Hsame.
  destruct (tz_is (tzinfo a) (tzinfo b)).
  - cbn [rbind]. rewrite cmp_int_zero, tuple_cmp_eq.
    split; [intros H; left; tauto|].
    intros [[_ H]|[Hn _]]; [exact H|]. destruct Hn. now apply Hsame.
  - assert (~ same_tzinfo_object a b) as Hns
      by (intros H; apply Hsame in H; discriminate).
    pose proof (fold_check a) as Hfa. pose proof (fold_check b) as Hfb.
    destruct (offset_eq (utcoffset a) _); cbn [negb].
    2: { cbn [rbind]. split; [discriminate|].
         intros [[H _]|(_ & _ & _ & H & _)]; [contradiction|].
         destruct H. now apply Hfa. }
    destruct (offset_eq (utcoffset b) _); cbn [negb].
    2: { cbn [rbind]. split; [discriminate|].
         intros [[H _]|(_ & _ & _ & _ & H & _)]; [contradiction|].
         destruct H. now apply Hfb. }
    assert (~ fold_matters a) as Na by (intros H; apply Hfa in H; discriminate).
    assert (~ fold_matters b) as Nb by (intros H; apply Hfb in H; discriminate).
    assert (is_aware a = true /\ is_aware b = true
            -> exists oa ob, utcoffset a = Some oa /\ utcoffset b = Some ob)
      as Haware.
    { intros [Aa Ab]. destruct (aware_utcoffset a Aa) as [oa ->].
      destruct (aware_utcoffset b Ab) as [ob ->]. eauto. }
    unfold instant.
    destruct (utcoffset a) as [oa|] eqn:Ea, (utcoffset b) as [ob|] eqn:Eb;
      cbn [offset_eq default from_option id].
    + assert (is_aware a = true /\ is_aware b = true) as [Aa Ab].
      { unfold utcoffset, is_aware in *.
        destruct (tzinfo a), (tzinfo b); try discriminate. now split. }
      destruct (Z.eqb_spec oa ob) as [->|Hne].
      * cbn [rbind]. rewrite cmp_int_zero, tuple_cmp_eq, fields_eq_wall
          by assumption.
        split; [intros H; right; repeat split; auto; lia|].
        intros [[H _]|(_ & _ & _ & _ & _ & H)]; [contradiction|lia].
      * replace (wall_us a - wall_us b + ob - oa)
          with ((wall_us a - oa) - (wall_us b - ob)) by lia.
        rewrite sign_of_difference. cbn [rbind].
        rewrite cmp_int_zero, Z.compare_eq_iff.
        split; [intros H; right; repeat split; auto|].
        intros [[H _]|(_ & _ & _ & _ & _ & H)]; [contradiction|exact H].
    + cbn [rbind]. split; [discriminate|].
      intros [[H _]|(_ & _ & Ab & _)]; [contradiction|].
      unfold utcoffset, is_aware in *. destruct (tzinfo b); discriminate.
    + cbn [rbind]. split; [discriminate|].
      intros [[H _]|(_ & Aa & _)]; [contradiction|].
      unfold utcoffset, is_aware in *. destruct (tzinfo a); discriminate.
    + exfalso. apply Hns. unfold same_tzinfo_object, utcoffset in *.
      destruct (tzinfo a), (tzinfo b); try discriminate. exact I.
Qed.

Lemma summary_eq_spec a b : summary_eq a b = true <-> a = b.
Proof.
  destruct a, b; simpl; try rewrite String.eqb_eq; split; congruence.
Qed.

(** X18.  What [==] means between events.  An event never equals an
    object of another class, and comparing two events raises nothing.
    Two events whose starts are [datetime] objects are equal exactly when
    they have the same summary and the same attendee status, and their
    starts either carry the same [tzinfo] object (or are both naive) and
    show the same clock fields, or carry different objects, are both
    aware with a UTC offset that does not depend on [fold], and denote
    the same instant. *)
Theorem event_eq_spec (a b : CalendarEvent) :
  valid_datetime (start a) = true -> valid_datetime (start b) = true ->
  __eq__ a another_object = false
  /\ (exists r, dt_eq (start a) (start b) = Ok r)
  /\ (__eq__ a (an_event b) = true
      <-> summary a = summary b
          /\ attendee_status a = attendee_status b
          /\ same_start (start a) (start b)).
Proof.
  intros Va Vb. split; [reflexivity|]. split; [apply dt_eq_total|].
  cbn [__eq__].
  rewrite !andb_true_iff, summary_eq_spec, String.eqb_eq,
    (datetime_eq_spec _ _ Va Vb). tauto.
Qed.

Lemma same_start_refl a : same_start a a.
Proof. left. split; [apply same_object_refl|reflexivity]. Qed.

Lemma same_start_sym a b : same_start a b -> same_start b a.
Proof.
  intros [[H1 H2]|(H1 & H2 & H3 & H4 & H5 & H6)]; [left|right].
  - split; [now apply same_object_sym|now symmetry].
  - repeat split; auto. intros H. apply H1. now apply same_object_sym.
Qed.

(** Two starts that are naive or have a fixed offset, and equal a third
    start of whatever time zone, are equal. *)
Lemma same_start_trans a b c :
  valid_datetime a = true -> valid_datetime b = true ->
  valid_datetime c = true ->
  without_zone a = true -> without_zone c = true ->
  same_start a b -> same_start b c -> same_start a c.
Proof.
  intros Va Vb Vc Za Zc. unfold same_start.
  rewrite (fields_eq_wall a b Va Vb), (fields_eq_wall b c Vb Vc),
    (fields_eq_wall a c Va Vc).
  assert (~ fold_matters a /\ ~ fold_matters c) as [Na Nc].
  { unfold fold_matters, without_zone in *. split.
    - intros (i & f & H & _). rewrite H in Za. discriminate.
    - intros (i & f & H & _). rewrite H in Zc. discriminate. }
  revert Na Nc. generalize (fold_matters a) (fold_matters c).
  generalize (fold_matters b). intros Fb Fa Fc Na Nc.
  unfold same_tzinfo_object, without_zone, is_aware, instant, utcoffset in *.
  destruct (tzinfo a) as [[x|i f]|], (tzinfo b) as [[y|j g]|],
    (tzinfo c) as [[z|k h]|]; try discriminate;
    cbn [tz_utcoffset default from_option id]; intros H1 H2;
    try (destruct (Z.eq_dec x z));
    intuition (subst; try discriminate; try lia).
Qed.

(** X19.  [==] on events whose starts are [datetime] objects: every
    event equals itself and equality goes both ways, whatever the time
    zones; two events whose starts are naive or have a fixed offset are
    equal when they are equal to a third event, whatever its time
    zone. *)
Theorem event_eq_equivalence (a b c : CalendarEvent) :
  valid_datetime (start a) = true -> valid_datetime (start b) = true ->
  valid_datetime (start c) = true ->
  __eq__ a (an_event a) = true
  /\ (__eq__ a (an_event b) = true -> __eq__ b (an_event a) = true)
  /\ (without_zone (start a) = true -> without_zone (start c) = true ->
      __eq__ a (an_event b) = true -> __eq__ b (an_event c) = true ->
      __eq__ a (an_event c) = true).
Proof.
  intros Va Vb Vc. cbn [__eq__].
  rewrite !andb_true_iff, !summary_eq_spec, !String.eqb_eq,
    (datetime_eq_spec _ _ Va Va), (datetime_eq_spec _ _ Va Vb),
    (datetime_eq_spec _ _ Vb Va), (datetime_eq_spec _ _ Vb Vc),
    (datetime_eq_spec _ _ Va Vc).
  split; [|split].
  - repeat split. apply same_start_refl.
  - intros [[H1 H2] H3]. repeat split; auto using same_start_sym.
  - intros Za Zc [[H1 H2] H3] [[H4 H5] H6].
    repeat split; try congruence.
    now apply (same_start_trans _ (start b)).
Qed.

(** Noon in UTC and 13:00 one hour east of UTC are the same instant. *)
Lemma event_eq_spec_witness :
  let a := mkevent (Some "Sync") (mkdatetime 2024 1 15 12 0 0 0 utc false)
             "ACCEPTED" in
  let b := mkevent (Some "Sync")
             (mkdatetime 2024 1 15 13 0 0 0
                (Some (timezone (3600 * US_PER_SECOND))) false)
             "ACCEPTED" in
  valid_datetime (start a) = true /\ valid_datetime (start b) = true
  /\ __eq__ a (an_event b) = true
  /\ (__eq__ a (an_event b) = true
      <-> summary a = summary b
          /\ attendee_status a = attendee_status b
          /\ same_start (start a) (start b)).
Proof.
  cbv zeta. split; [reflexivity|]. split; [reflexivity|].
  split; [vm_compute; reflexivity|].
  exact (proj2 (proj2 (event_eq_spec
                  (mkevent (Some "Sync")
                     (mkdatetime 2024 1 15 12 0 0 0 utc false) "ACCEPTED")
                  (mkevent (Some "Sync")
                     (mkdatetime 2024 1 15 13 0 0 0
                        (Some (timezone (3600 * US_PER_SECOND))) false)
                     "ACCEPTED")
                  eq_refl eq_refl))).
Defined.

(** A start in an hour that the clocks repeat equals no start of another
    time zone, not even one that denotes the same instant. *)
Example repeated_hour_is_unequal :
  let a := mkevent (Some "Sync") warsaw_twice "ACCEPTED" in
  let b := mkevent (Some "Sync") (mkdatetime 2024 10 27 0 30 0 0 utc false)
             "ACCEPTED" in
  instant (start a) = instant (start b)
  /\ __eq__ a (an_event b) = false
  /\ __eq__ a (an_event a) = true.
Proof. cbv zeta. repeat split; vm_compute; reflexivity. Qed.

Lemma event_eq_equivalence_witness :
  let a := mkevent (Some "Sync") (mkdatetime 2024 1 15 12 0 0 0 utc false)
             "ACCEPTED" in
  let b := mkevent (Some "Sync")
             (mkdatetime 2024 1 15 13 0 0 0
                (Some (timezone (3600 * US_PER_SECOND))) false)
             "ACCEPTED" in
  let c := mkevent (Some "Sync")
             (mkdatetime 2024 1 15 7 0 0 0
                (Some (timezone (- (5 * 3600 * US_PER_SECOND)))) false)
             "ACCEPTED" in
  valid_datetime (start a) = true /\ valid_datetime (start b) = true
  /\ valid_datetime (start c) = true
  /\ __eq__ a (an_event b) = true /\ __eq__ b (an_event c) = true
  /\ __eq__ a (an_event c) = true.
Proof.
  cbv zeta. split; [reflexivity|]. split; [reflexivity|]. split; [reflexivity|].
  split; [vm_compute; reflexivity|]. split; [vm_compute; reflexivity|].
  apply (proj2 (proj2 (event_eq_equivalence
           (mkevent (Some "Sync") (mkdatetime 2024 1 15 12 0 0 0 utc false)
              "ACCEPTED")
           (mkevent (Some "Sync")
              (mkdatetime 2024 1 15 13 0 0 0
                 (Some (timezone (3600 * US_PER_SECOND))) false)
              "ACCEPTED")
           (mkevent (Some "Sync")
              (mkdatetime 2024 1 15 7 0 0 0
                 (Some (timezone (- (5 * 3600 * US_PER_SECOND)))) false)
              "ACCEPTED")
           eq_refl eq_refl eq_refl))); vm_compute; reflexivity.
Defined.

End omnimat_more.
